(** * Codein: the editing core of src/main.c

    A shallow embedding of the line buffer, the undo and redo stacks, the
    three edit operations and the forward search of the ncurses editor in
    [src/main.c], and the properties of them that the specification states.

    Conventions of the embedding.
    - The globals of the C file are the fields of one record, [editor].
      [lines] holds the slots [lines[0 .. num_lines)] of the C array, so
      [num_lines] is its length; each stack holds the slots below its count,
      oldest first, as the C arrays do.
    - A line is a C string, given by the bytes before its terminator.
    - C [int]s are [Z]; every value the code computes stays far below the
      range of [int] (line lengths are taken to fit an [int]).
    - The result of an allocation that the code tests ([if (!p)]) is read
      from [allocs], the outcomes of the coming tested allocations in
      program order; when the list is exhausted the allocation succeeds.
      Allocations whose result the code uses untested (the [strdup] of each
      line of a snapshot, the merge buffer of [backspace]) are taken to
      succeed.
    - [beep()] is counted in [beeps]; the screen width that [getmaxyx]
      reports is the field [scr_cols].
    - The C code indexes [lines[cur_y]] and the bytes of that line at
      [cur_x] unchecked; the embedding follows it on the states where the
      cursor lies in the document ([cursor_ok]), as the key loop of [main]
      keeps it.
    - The program as a whole is a machine that reacts to one key at a
      time ([key_step]): its control point, the [getch] it is waiting in,
      is the [mode] of a [session].  The codes of the function keys come
      from [<ncurses.h>] and are parameters ([curses_keys]); the screen
      height is a field of the session; whether [fopen] succeeds is an
      argument.  What the program paints is not part of the embedding. *)

From Stdlib Require Import ZArith Lia Ascii String.
From stdpp Require Import base tactics option list.

Local Open Scope Z_scope.

(** ** Constants *)

Definition MAX_LINES : Z := 10000.
Definition MAX_COL : Z := 4096.
Definition MAX_SEARCH : Z := 256.
Definition UNDO_DEPTH : Z := 32.

(** ** Data *)

(** A line of the document. *)
Abbreviation line := (list ascii).

(** [typedef struct { char **lines; int num_lines; int cur_x, cur_y,
    top_line; } UndoSnapshot;]  [snap_lines] is the [lines] pointer: [None]
    for [NULL], otherwise the array, whose length is the struct's
    [num_lines]. *)
Record UndoSnapshot : Type := mkSnapshot {
  snap_lines : option (list line);
  snap_cur_x : Z;
  snap_cur_y : Z;
  snap_top_line : Z
}.

Record editor : Type := mkEditor {
  lines : list line;
  cur_x : Z;
  cur_y : Z;
  top_line : Z;
  search_query : line;
  undo_stack : list UndoSnapshot;
  redo_stack : list UndoSnapshot;
  scr_cols : Z;
  allocs : list bool;
  beeps : nat
}.

Definition num_lines (st : editor) : Z := Z.of_nat (length (lines st)).
Definition undo_count (st : editor) : Z := Z.of_nat (length (undo_stack st)).
Definition redo_count (st : editor) : Z := Z.of_nat (length (redo_stack st)).

(** Field updates. *)

Definition set_lines (ls : list line) (st : editor) : editor :=
  mkEditor ls (cur_x st) (cur_y st) (top_line st) (search_query st)
           (undo_stack st) (redo_stack st) (scr_cols st) (allocs st) (beeps st).

Definition set_cursor (x y : Z) (st : editor) : editor :=
  mkEditor (lines st) x y (top_line st) (search_query st)
           (undo_stack st) (redo_stack st) (scr_cols st) (allocs st) (beeps st).

Definition set_undo_stack (u : list UndoSnapshot) (st : editor) : editor :=
  mkEditor (lines st) (cur_x st) (cur_y st) (top_line st) (search_query st)
           u (redo_stack st) (scr_cols st) (allocs st) (beeps st).

Definition set_redo_stack (r : list UndoSnapshot) (st : editor) : editor :=
  mkEditor (lines st) (cur_x st) (cur_y st) (top_line st) (search_query st)
           (undo_stack st) r (scr_cols st) (allocs st) (beeps st).

Definition set_allocs (a : list bool) (st : editor) : editor :=
  mkEditor (lines st) (cur_x st) (cur_y st) (top_line st) (search_query st)
           (undo_stack st) (redo_stack st) (scr_cols st) a (beeps st).

(** [beep()]. *)
Definition beep (st : editor) : editor :=
  mkEditor (lines st) (cur_x st) (cur_y st) (top_line st) (search_query st)
           (undo_stack st) (redo_stack st) (scr_cols st) (allocs st) (S (beeps st)).

(** ** C strings *)

Definition NUL : ascii := Ascii.zero.

(** The string a buffer holds: its bytes up to the first terminator. *)
Fixpoint cstr (buf : list ascii) : line :=
  match buf with
  | [] => []
  | b :: rest => if Ascii.eqb b NUL then [] else b :: cstr rest
  end.

Definition strlen (s : line) : Z := Z.of_nat (length s).

(** [(char)c] for an [int c]. *)
Definition char_of_int (c : Z) : ascii := ascii_of_N (Z.to_N (c mod 256)).

(** [lines[y]]. *)
Definition line_at (st : editor) (y : Z) : line :=
  default [] (lines st !! Z.to_nat y).

(** ** Tested allocations *)

Definition malloc (st : editor) : bool * editor :=
  (hd true (allocs st), set_allocs (tail (allocs st)) st).

(** ** History *)

(** The copy of the live state that the capture loops write into a slot:
    a fresh array with a [strdup] of every line, and the cursor and the
    viewport. *)
Definition snapshot (st : editor) : UndoSnapshot :=
  mkSnapshot (Some (lines st)) (cur_x st) (cur_y st) (top_line st).

(** [free_snapshot(&stack[0]); memmove(&stack[0], &stack[1], ...)]. *)
Definition drop_oldest (stk : list UndoSnapshot) : list UndoSnapshot :=
  tail stk.

Definition push_undo (st : editor) : editor :=
  let st1 :=
    if undo_count st =? UNDO_DEPTH
    then set_undo_stack (drop_oldest (undo_stack st)) st
    else st in
  let '(ok, st2) := malloc st1 in
  if negb ok then st2
  else set_redo_stack [] (set_undo_stack (undo_stack st2 ++ [snapshot st2]) st2).

(** What the slot [stack[UNDO_DEPTH - 1]] holds when the stack was full and
    the allocation of the copy failed: after the [memmove] it still has the
    cursor fields of the former top, and its [lines] is [NULL]. *)
Definition dead_slot (stk : list UndoSnapshot) : UndoSnapshot :=
  match last stk with
  | Some r => mkSnapshot None (snap_cur_x r) (snap_cur_y r) (snap_top_line r)
  | None => mkSnapshot None 0 0 0
  end.

(** The "save current state" block shared by [do_undo] and [do_redo]:
    [stk] is the stack that receives the copy of the live state [st]. *)
Definition save_current (ok : bool) (st : editor) (stk : list UndoSnapshot)
  : list UndoSnapshot :=
  if Z.of_nat (length stk) <? UNDO_DEPTH
  then (if ok then stk ++ [snapshot st] else stk)
  else drop_oldest stk ++ [if ok then snapshot st else dead_slot stk].

(** "copy snapshot into current buffer": [None] when the snapshot's
    [lines] is [NULL], which the loop dereferences. *)
Definition restore (s : UndoSnapshot) (st : editor) : option editor :=
  match snap_lines s with
  | None => None
  | Some ls =>
      Some (mkEditor ls (snap_cur_x s) (snap_cur_y s) (snap_top_line s)
              (search_query st) (undo_stack st) (redo_stack st)
              (scr_cols st) (allocs st) (beeps st))
  end.

Definition do_undo (st : editor) : option editor :=
  match last (undo_stack st) with
  | None => Some (beep st)
  | Some s =>
      let '(ok, st1) := malloc st in
      let st2 := set_redo_stack (save_current ok st1 (redo_stack st1)) st1 in
      restore s (set_undo_stack (removelast (undo_stack st2)) st2)
  end.

Definition do_redo (st : editor) : option editor :=
  match last (redo_stack st) with
  | None => Some (beep st)
  | Some r =>
      let '(ok, st1) := malloc st in
      let st2 := set_undo_stack (save_current ok st1 (undo_stack st1)) st1 in
      restore r (set_redo_stack (removelast (redo_stack st2)) st2)
  end.

(** ** Edit operations *)

Definition newline (st0 : editor) : editor :=
  let st := push_undo st0 in
  if num_lines st + 1 >=? MAX_LINES then st
  else
    let ln := line_at st (cur_y st) in
    let '(ok_left, st1) := malloc st in
    let '(ok_right, st2) := malloc st1 in
    if negb ok_left || negb ok_right then st2
    else
      let y := Z.to_nat (cur_y st2) in
      let x := Z.to_nat (cur_x st2) in
      let ls := <[ y := take x ln ]> (lines st2) in
      set_cursor 0 (cur_y st2 + 1)
        (set_lines (take (S y) ls ++ drop x ln :: drop (S y) ls) st2).

Definition insert_char (c : Z) (st0 : editor) : editor :=
  let st := push_undo st0 in
  if cur_x st >=? scr_cols st - 1 then newline st
  else
    let ln := line_at st (cur_y st) in
    let len := strlen ln in
    if len + 2 >=? MAX_COL then st
    else
      let '(ok, st1) := malloc st in
      if negb ok then st1
      else
        let x := Z.to_nat (cur_x st1) in
        let newl := cstr (take x ln ++ char_of_int c :: drop x ln) in
        set_cursor (cur_x st1 + 1) (cur_y st1)
          (set_lines (<[ Z.to_nat (cur_y st1) := newl ]> (lines st1)) st1).

Definition backspace (st0 : editor) : editor :=
  let st := push_undo st0 in
  if cur_x st >? 0 then
    let ln := line_at st (cur_y st) in
    let x := Z.to_nat (cur_x st) in
    set_cursor (cur_x st - 1) (cur_y st)
      (set_lines (<[ Z.to_nat (cur_y st) := take (x - 1) ln ++ drop x ln ]> (lines st)) st)
  else if cur_y st >? 0 then
    let prev := line_at st (cur_y st - 1) in
    let cur := line_at st (cur_y st) in
    let prev_len := strlen prev in
    let cur_len := strlen cur in
    if prev_len + cur_len + 1 >=? MAX_COL then st
    else
      let y := Z.to_nat (cur_y st) in
      set_cursor prev_len (cur_y st - 1)
        (set_lines (delete y (<[ (y - 1)%nat := prev ++ cur ]> (lines st))) st)
  else st.

(** The three mutating commands of the key loop in [main]. *)
Inductive edit : Type :=
| InsertChar (c : Z)
| Backspace
| Newline.

Definition apply_edit (e : edit) (st : editor) : editor :=
  match e with
  | InsertChar c => insert_char c st
  | Backspace => backspace st
  | Newline => newline st
  end.

(** ** Search *)

Fixpoint starts_with (needle hay : list ascii) : bool :=
  match needle, hay with
  | [], _ => true
  | _ :: _, [] => false
  | a :: needle', b :: hay' => Ascii.eqb a b && starts_with needle' hay'
  end.

(** [strstr(hay, needle)], as the offset [p - hay] of the match. *)
Fixpoint strstr (hay needle : list ascii) : option nat :=
  if starts_with needle hay then Some 0%nat
  else match hay with
       | [] => None
       | _ :: hay' => S <$> strstr hay' needle
       end.

(** One of the two [for] loops over whole rows: the rows [rows], the first
    of which has index [y], are searched from their column 0. *)
Fixpoint scan_rows (rows : list line) (y : Z) (q : line) : option (Z * Z) :=
  match rows with
  | [] => None
  | ln :: rest =>
      match strstr ln q with
      | Some x => Some (y, Z.of_nat x)
      | None => scan_rows rest (y + 1) q
      end
  end.

(** The second loop, [for (y = 0; y < start_y; ++y)], and the final
    [beep()]. *)
Definition wrap_around (start_y : Z) (st : editor) : editor :=
  match scan_rows (take (Z.to_nat start_y) (lines st)) 0 (search_query st) with
  | Some (y, x) => set_cursor x y st
  | None => beep st
  end.

(** [search_forward].  The scan of the start row begins at
    [line + cur_x + 1].  When the cursor stands at the end of its line this
    address is past the line's terminator, and what [strstr] reads there is
    not part of the document: the result is then [None]. *)
Definition search_forward (st : editor) : option editor :=
  match search_query st with
  | [] => Some (beep st)
  | _ :: _ =>
      let q := search_query st in
      let start_y := cur_y st in
      let start_x := cur_x st + 1 in
      if start_y <? num_lines st then
        let ln := line_at st start_y in
        if start_x >? strlen ln then None
        else
          match strstr (drop (Z.to_nat start_x) ln) q with
          | Some k => Some (set_cursor (start_x + Z.of_nat k) start_y st)
          | None =>
              match scan_rows (drop (S (Z.to_nat start_y)) (lines st))
                      (start_y + 1) q with
              | Some (y, x) => Some (set_cursor x y st)
              | None => Some (wrap_around start_y st)
              end
          end
      else Some (wrap_around start_y st)
  end.

(** ** Loading *)

Definition is_eol (b : ascii) : bool :=
  Ascii.eqb b "010"%char || Ascii.eqb b "013"%char.

Fixpoint drop_while_eol (rbuf : list ascii) : list ascii :=
  match rbuf with
  | [] => []
  | b :: rest => if is_eol b then drop_while_eol rest else rbuf
  end.

(** "strip newline": the bytes of the record with its trailing line
    terminators removed. *)
Definition strip_eol (buf : list ascii) : list ascii :=
  rev (drop_while_eol (rev buf)).

(** [load_file(path)].  [file] is [None] when there is no path or [fopen]
    fails, and otherwise the records that successive [getline] calls
    return. *)
Definition load_file (file : option (list (list ascii))) (st : editor) : editor :=
  match file with
  | None => set_lines [[]] st
  | Some records =>
      let ls := map (fun buf => cstr (strip_eol buf))
                    (take (Z.to_nat MAX_LINES) records) in
      match ls with
      | [] => set_lines [[]] st
      | _ :: _ => set_lines ls st
      end
  end.

(** The globals as they are when [main] has called [load_file]: all
    zero-initialised but the document.  [cols] and [plan] are the
    environment's: the screen width and the outcomes of the tested
    allocations to come. *)
Definition startup (file : option (list (list ascii))) (cols : Z)
    (plan : list bool) : editor :=
  load_file file (mkEditor [] 0 0 0 [] [] [] cols plan 0).

(** ** The cursor invariant *)

Definition cursor_ok (st : editor) : Prop :=
  0 <= cur_y st < num_lines st /\
  0 <= cur_x st <= strlen (line_at st (cur_y st)).

(** No tested allocation is going to fail. *)
Definition allocs_succeed (st : editor) : Prop :=
  Forall (fun ok => ok = true) (allocs st).

(** The next tested allocation succeeds.  In a state in which an edit is
    about to run, that is the allocation [push_undo] makes for the
    snapshot, [s->lines = malloc(...)]; before [do_undo] or [do_redo] it is
    the one for the copy of the live state. *)
Definition next_alloc_ok (st : editor) : Prop := hd true (allocs st) = true.

(** The live state that the renderer reads: the document, the cursor and
    the viewport. *)
Definition same_live (a b : editor) : Prop :=
  lines a = lines b /\ cur_x a = cur_x b /\ cur_y a = cur_y b /\
  top_line a = top_line b.

(** ** Notions used by the statements *)

(** What [push_undo] does to the undo stack before it captures. *)
Definition make_room (u : list UndoSnapshot) : list UndoSnapshot :=
  if Z.of_nat (length u) =? UNDO_DEPTH then drop_oldest u else u.

(** A snapshot whose [lines] is not [NULL]. *)
Definition holds_lines (s : UndoSnapshot) : Prop := is_Some (snap_lines s).

(** The history as the edits, [do_undo] and [do_redo] keep it: the two
    stacks together hold at most [UNDO_DEPTH] snapshots, and every snapshot
    on them holds its lines. *)
Definition history_ok (st : editor) : Prop :=
  undo_count st + redo_count st <= UNDO_DEPTH /\
  Forall holds_lines (undo_stack st) /\
  Forall holds_lines (redo_stack st).

(** The guards under which an edit, once it has captured, returns without
    touching the document: [insert_char] on a line at the length cap (when
    the cursor is left of the screen edge), [backspace] at row 0 column 0
    or before a merge that would be too long, [newline] at the line-count
    cap. *)
Definition refused (e : edit) (st : editor) : bool :=
  match e with
  | InsertChar _ =>
      (cur_x st <? scr_cols st - 1) &&
      (strlen (line_at st (cur_y st)) + 2 >=? MAX_COL)
  | Backspace =>
      (cur_x st <=? 0) &&
      ((cur_y st <=? 0) ||
       (strlen (line_at st (cur_y st - 1)) + strlen (line_at st (cur_y st)) + 1
          >=? MAX_COL))
  | Newline => num_lines st + 1 >=? MAX_LINES
  end.

(** The rows after a split of row [y] at column [x]. *)
Definition split_rows (ls : list line) (y x : nat) : list line :=
  let ln := default [] (ls !! y) in
  take y ls ++ take x ln :: drop x ln :: drop (S y) ls.

(** Two states that the code after the capture cannot tell apart: the same
    document, cursor, viewport, screen width and coming allocations. *)
Definition live_eq (a b : editor) : Prop :=
  same_live a b /\ scr_cols a = scr_cols b /\ allocs a = allocs b.

(** The invariant behind "at least one line": the document is not empty,
    and neither is the document held by any snapshot on the stacks. *)
Definition snapshot_ok (s : UndoSnapshot) : Prop :=
  forall ls, snap_lines s = Some ls -> ls <> [].

Definition doc_inv (st : editor) : Prop :=
  lines st <> [] /\
  Forall snapshot_ok (undo_stack st) /\
  Forall snapshot_ok (redo_stack st).

(** The states of a run: [main] loads the file, and then the key loop
    applies the edits and the history commands. *)
Inductive reachable : editor -> Prop :=
| reach_startup file cols plan : reachable (startup file cols plan)
| reach_insert_char c st : reachable st -> reachable (insert_char c st)
| reach_backspace st : reachable st -> reachable (backspace st)
| reach_newline st : reachable st -> reachable (newline st)
| reach_undo st st' : reachable st -> do_undo st = Some st' -> reachable st'
| reach_redo st st' : reachable st -> do_redo st = Some st' -> reachable st'.

(** ** Cursor keys, paging and the screen *)

Definition set_top_line (t : Z) (st : editor) : editor :=
  mkEditor (lines st) (cur_x st) (cur_y st) t (search_query st)
           (undo_stack st) (redo_stack st) (scr_cols st) (allocs st) (beeps st).

Definition set_search_query (q : line) (st : editor) : editor :=
  mkEditor (lines st) (cur_x st) (cur_y st) (top_line st) q
           (undo_stack st) (redo_stack st) (scr_cols st) (allocs st) (beeps st).

Definition set_scr_cols (cols : Z) (st : editor) : editor :=
  mkEditor (lines st) (cur_x st) (cur_y st) (top_line st) (search_query st)
           (undo_stack st) (redo_stack st) cols (allocs st) (beeps st).

(** [int l = strlen(lines[cur_y]); if (cur_x > l) cur_x = l;] *)
Definition clamp_x (st : editor) : editor :=
  let l := strlen (line_at st (cur_y st)) in
  if cur_x st >? l then set_cursor l (cur_y st) st else st.

(** The [KEY_UP], [KEY_DOWN], [KEY_LEFT] and [KEY_RIGHT] branches of the key
    loop in [main]. *)
Definition key_up (st : editor) : editor :=
  if cur_y st >? 0 then clamp_x (set_cursor (cur_x st) (cur_y st - 1) st)
  else st.

Definition key_down (st : editor) : editor :=
  if cur_y st <? num_lines st - 1
  then clamp_x (set_cursor (cur_x st) (cur_y st + 1) st)
  else st.

Definition key_left (st : editor) : editor :=
  if cur_x st >? 0 then set_cursor (cur_x st - 1) (cur_y st) st
  else if cur_y st >? 0
       then set_cursor (strlen (line_at st (cur_y st - 1))) (cur_y st - 1) st
       else st.

Definition key_right (st : editor) : editor :=
  let l := strlen (line_at st (cur_y st)) in
  if cur_x st <? l then set_cursor (cur_x st + 1) (cur_y st) st
  else if cur_y st <? num_lines st - 1
       then set_cursor 0 (cur_y st + 1) st
       else st.

(** [int visible = rows - 1; if (visible <= 0) visible = 1;] *)
Definition page_height (rows : Z) : Z :=
  if rows - 1 <=? 0 then 1 else rows - 1.

(** [page_up] and [page_down]; [rows] is the screen height that [getmaxyx]
    reports. *)
Definition page_up (rows : Z) (st : editor) : editor :=
  let visible := page_height rows in
  if cur_y st =? 0 then set_top_line 0 st
  else
    let st1 :=
      set_cursor (cur_x st)
        (if cur_y st - visible <? 0 then 0 else cur_y st - visible) st in
    let st2 :=
      if top_line st1 >? cur_y st1 then set_top_line (cur_y st1) st1 else st1 in
    clamp_x st2.

Definition page_down (rows : Z) (st : editor) : editor :=
  let visible := page_height rows in
  if cur_y st >=? num_lines st - 1 then
    set_top_line (if num_lines st >? visible then num_lines st - visible else 0) st
  else
    let st1 :=
      set_cursor (cur_x st)
        (if cur_y st + visible >=? num_lines st - 1
         then num_lines st - 1 else cur_y st + visible) st in
    let desired_top := cur_y st1 - visible + 1 in
    let st2 := set_top_line (if desired_top <? 0 then 0 else desired_top) st1 in
    clamp_x st2.

(** What [draw_screen] does to the globals, after it has painted: "ensure
    cursor is within visible bounds".  The painting itself (the rows from
    [top_line] on, as it is on entry, and the status line) writes to the
    terminal only and is left out. *)
Definition draw_screen (rows : Z) (st : editor) : editor :=
  let visible := rows - 1 in
  let st1 := if cur_x st <? 0 then set_cursor 0 (cur_y st) st else st in
  let st2 := if cur_y st1 <? 0 then set_cursor (cur_x st1) 0 st1 else st1 in
  let st3 :=
    if cur_y st2 >=? num_lines st2
    then set_cursor (cur_x st2) (num_lines st2 - 1) st2 else st2 in
  let disp_y := cur_y st3 - top_line st3 in
  if disp_y <? 0 then set_top_line (cur_y st3) st3
  else if disp_y >=? visible then set_top_line (cur_y st3 - visible + 1) st3
  else st3.

(** The cursor's row is one of the [rows - 1] rows shown from [top_line]. *)
Definition cursor_visible (rows : Z) (st : editor) : Prop :=
  top_line st <= cur_y st < top_line st + (rows - 1).

(** ** Saving *)

(** The bytes that the loop of [save_file] writes:
    [fprintf(f, "%s\n", lines[i])] for every line. *)
Definition file_text (st : editor) : list ascii :=
  concat (map (fun ln => ln ++ ["010"%char]) (lines st)).

(** [save_file(path)], with the global [filename] and the outcome of
    [fopen] as arguments: the value returned, and the file written with its
    contents when there is one. *)
Definition save_file (path : option line) (filename : line) (fopen_ok : bool)
    (st : editor) : Z * option (line * list ascii) :=
  let p := match path with Some p => p | None => filename end in
  match p with
  | [] => (-1, None)
  | _ :: _ => if fopen_ok then (0, Some (p, file_text st)) else (-1, None)
  end.

(** Modelled from the C library: the records that successive [getline]
    calls return on a stream holding [bytes], each ending with its newline,
    the last one without when the stream does not end in a newline.  [cur]
    holds, in reverse, the bytes of the record being read. *)
Fixpoint getline_records (cur : list ascii) (bytes : list ascii)
  : list (list ascii) :=
  match bytes with
  | [] => match cur with [] => [] | _ :: _ => [rev cur] end
  | b :: rest =>
      if Ascii.eqb b "010"%char
      then rev (b :: cur) :: getline_records [] rest
      else getline_records (b :: cur) rest
  end.

(** ** The key loop *)

(** Modelled from [<ncurses.h>], which is not part of the sources: the
    codes that [getch] returns for the function keys, taken as
    parameters. *)
Record curses_keys : Type := mkKeys {
  KEY_UP : Z;
  KEY_DOWN : Z;
  KEY_LEFT : Z;
  KEY_RIGHT : Z;
  KEY_PPAGE : Z;
  KEY_NPAGE : Z;
  KEY_BACKSPACE : Z;
  KEY_ENTER : Z
}.

(** Where the program waits in [getch]: in the loop of [main], in the loop
    of [prompt_search] or of [prompt_save_filename] (with the bytes typed so
    far, [buf[0 .. pos)]), or in [show_help]; [Stopped] after Ctrl-Q. *)
Inductive mode : Type :=
| Editing
| Searching (buf : line)
| Saving (buf : line)
| Help
| Stopped.

(** The program between two key presses: the globals ([filename] among
    them), the screen height, and the files written so far, latest
    first. *)
Record session : Type := mkSession {
  ed : editor;
  md : mode;
  filename : line;
  scr_rows : Z;
  written : list (line * list ascii)
}.

(** [if (ch >= 32 && ch < 127 && pos < cap) { buf[pos++] = (char)ch; ... }]
    and [if (pos > 0) buf[--pos] = '\0';], the two edits of a prompt
    buffer. *)
Definition prompt_type (cap : Z) (ch : Z) (buf : line) : line :=
  if (32 <=? ch) && (ch <? 127) && (strlen buf <? cap)
  then buf ++ [char_of_int ch] else buf.

Definition prompt_erase (buf : line) : line := removelast buf.

(** A call of [save_file] from the key loop: its result is dropped, the
    file it wrote is recorded. *)
Definition do_save (fopen_ok : bool) (s : session) : session :=
  match snd (save_file (Some (filename s)) (filename s) fopen_ok (ed s)) with
  | Some w => mkSession (ed s) (md s) (filename s) (scr_rows s) (w :: written s)
  | None => s
  end.

(** Back in the loop of [main]: [draw_screen()] and the next [getch]. *)
Definition redraw (s : session) (st : editor) : session :=
  mkSession (draw_screen (scr_rows s) st) Editing (filename s) (scr_rows s)
            (written s).

Definition enter_mode (m : mode) (s : session) : session :=
  mkSession (ed s) m (filename s) (scr_rows s) (written s).

(** One iteration of the loop of [main] on the key [ch], up to the next
    [getch]. *)
Definition main_key (k : curses_keys) (fopen_ok : bool) (ch : Z)
    (s : session) : option session :=
  let st := ed s in
  if ch =? 17 then Some (enter_mode Stopped s)
  else if ch =? 19 then
    match filename s with
    | [] => Some (enter_mode (Saving []) s)
    | _ :: _ => let s' := do_save fopen_ok s in Some (redraw s' (ed s'))
    end
  else if ch =? KEY_UP k then Some (redraw s (key_up st))
  else if ch =? KEY_DOWN k then Some (redraw s (key_down st))
  else if ch =? KEY_PPAGE k then Some (redraw s (page_up (scr_rows s) st))
  else if ch =? KEY_NPAGE k then Some (redraw s (page_down (scr_rows s) st))
  else if ch =? KEY_LEFT k then Some (redraw s (key_left st))
  else if ch =? KEY_RIGHT k then Some (redraw s (key_right st))
  else if (ch =? KEY_BACKSPACE k) || (ch =? 127) then Some (redraw s (backspace st))
  else if ch =? 21 then redraw s <$> do_undo st
  else if ch =? 26 then redraw s <$> do_redo st
  else if ch =? 6 then Some (enter_mode (Searching []) s)
  else if ch =? 14 then redraw s <$> search_forward st
  else if ch =? 8 then Some (enter_mode Help s)
  else if (ch =? 10) || (ch =? KEY_ENTER k) then Some (redraw s (newline st))
  else if (32 <=? ch) && (ch <? 127) then Some (redraw s (insert_char ch st))
  else Some (redraw s st).

(** One iteration of the loop of [prompt_search]. *)
Definition search_key (k : curses_keys) (buf : line) (ch : Z) (s : session)
  : option session :=
  if ch =? 27 then Some (redraw s (ed s))
  else if (ch =? 10) || (ch =? KEY_ENTER k) then
    redraw s <$>
      search_forward
        (set_search_query (take (Z.to_nat (MAX_SEARCH - 1)) buf) (ed s))
  else if (ch =? KEY_BACKSPACE k) || (ch =? 127)
  then Some (enter_mode (Searching (prompt_erase buf)) s)
  else Some (enter_mode (Searching (prompt_type (MAX_SEARCH - 1) ch buf)) s).

(** One iteration of the loop of [prompt_save_filename]. *)
Definition save_key (k : curses_keys) (fopen_ok : bool) (buf : line) (ch : Z)
    (s : session) : option session :=
  if ch =? 27 then Some (redraw s (ed s))
  else if (ch =? 10) || (ch =? KEY_ENTER k) then
    match buf with
    | [] => Some (redraw s (ed s))
    | _ :: _ =>
        let s1 := mkSession (ed s) (md s) (take 1023 buf) (scr_rows s)
                            (written s) in
        let s2 := do_save fopen_ok s1 in
        Some (redraw s2 (ed s2))
    end
  else if (ch =? KEY_BACKSPACE k) || (ch =? 127)
  then Some (enter_mode (Saving (prompt_erase buf)) s)
  else Some (enter_mode (Saving (prompt_type 1023 ch buf)) s).

(** The program's reaction to one key, wherever it is waiting.  [None]:
    the search read past the end of the cursor's line, or a history slot
    without lines was restored. *)
Definition key_step (k : curses_keys) (fopen_ok : bool) (ch : Z)
    (s : session) : option session :=
  match md s with
  | Editing => main_key k fopen_ok ch s
  | Searching buf => search_key k buf ch s
  | Saving buf => save_key k fopen_ok buf ch s
  | Help => Some (redraw s (ed s))
  | Stopped => Some s
  end.

(** [main] up to its first [getch]: [load_file(argv[1])] (or
    [load_file(NULL)]), and the first [draw_screen()].  [file] is what
    [fopen] and [getline] give for the path, as in [load_file]. *)
Definition boot (path : option line) (file : option (list (list ascii)))
    (rows cols : Z) (plan : list bool) : session :=
  let st := startup (match path with Some _ => file | None => None end)
                    cols plan in
  mkSession (draw_screen rows st) Editing
            (match path with Some p => take 1023 p | None => [] end)
            rows [].

(** The sessions of a run; between two keys the terminal may be resized. *)
Inductive runs (k : curses_keys) : session -> Prop :=
| runs_boot path file rows cols plan :
    runs k (boot path file rows cols plan)
| runs_key fopen_ok ch s s' :
    runs k s -> key_step k fopen_ok ch s = Some s' -> runs k s'
| runs_resize rows cols s :
    runs k s ->
    runs k (mkSession (set_scr_cols cols (ed s)) (md s) (filename s) rows
              (written s)).

(** ** Soundness of a state *)

Definition nul_free (ln : line) : Prop := Forall (fun b => b <> NUL) ln.

(** A document with a cursor and a viewport as the code expects them:
    between 1 and [MAX_LINES] lines, none with a terminator inside, the
    cursor on a line and within it or at its end, the viewport not above
    the first line. *)
Definition view_ok (ls : list line) (x y top : Z) : Prop :=
  1 <= Z.of_nat (length ls) <= MAX_LINES /\
  Forall nul_free ls /\
  0 <= y < Z.of_nat (length ls) /\
  0 <= x <= strlen (default [] (ls !! Z.to_nat y)) /\
  0 <= top.

Definition snapshot_sound (s : UndoSnapshot) : Prop :=
  forall ls, snap_lines s = Some ls ->
    view_ok ls (snap_cur_x s) (snap_cur_y s) (snap_top_line s).

Definition sound (st : editor) : Prop :=
  view_ok (lines st) (cur_x st) (cur_y st) (top_line st) /\
  Forall snapshot_sound (undo_stack st) /\
  Forall snapshot_sound (redo_stack st) /\
  undo_count st <= UNDO_DEPTH /\
  redo_count st <= UNDO_DEPTH.

(** The prompt buffers and the strings copied from them fit their arrays:
    [buf[MAX_SEARCH]] and [search_query[MAX_SEARCH]], [buf[1024]] and
    [filename[1024]], each with room for the terminator. *)
Definition buffers_fit (s : session) : Prop :=
  strlen (search_query (ed s)) <= MAX_SEARCH - 1 /\
  strlen (filename s) <= 1023 /\
  match md s with
  | Searching buf => strlen buf <= MAX_SEARCH - 1
  | Saving buf => strlen buf <= 1023
  | _ => True
  end.

(** ** Runs of edits and undos *)

(** An edit that captures once: [insert_char] left of the screen edge,
    [backspace], [newline]. *)
Definition captures_once (e : edit) (st : editor) : bool :=
  match e with
  | InsertChar _ => cur_x st <? scr_cols st - 1
  | _ => true
  end.

Fixpoint apply_edits (es : list edit) (st : editor) : editor :=
  match es with
  | [] => st
  | e :: rest => apply_edits rest (apply_edit e st)
  end.

(** Every edit of the list captures once in the state it is applied to. *)
Fixpoint all_capture_once (es : list edit) (st : editor) : bool :=
  match es with
  | [] => true
  | e :: rest => captures_once e st && all_capture_once rest (apply_edit e st)
  end.

(** [n] times Ctrl-U. *)
Fixpoint undo_times (n : nat) (st : editor) : option editor :=
  match n with
  | O => Some st
  | S m => do_undo st ≫= undo_times m
  end.

(** The states in which the edits of a run are applied, first to last. *)
Fixpoint states_before (es : list edit) (st : editor) : list editor :=
  match es with
  | [] => []
  | e :: rest => st :: states_before rest (apply_edit e st)
  end.

(** A line of at most [B] bytes. *)
Definition short (B : Z) (ln : line) : Prop := strlen ln <= B.

(** ** What a search looks at *)

(** The query occurs in row [y] at column [x]. *)
Definition occurs_at (st : editor) (y x : Z) : bool :=
  starts_with (search_query st) (drop (Z.to_nat x) (line_at st y)).

(** The positions that [search_forward] looks at: every column of every
    row, except the columns of the cursor's row up to the cursor. *)
Definition scanned (st : editor) (y x : Z) : Prop :=
  0 <= y < num_lines st /\ 0 <= x <= strlen (line_at st y) /\
  (y = cur_y st -> cur_x st < x).

(** The turn of row [y] in the scan: the cursor's row first, the rows below
    it next, then the rows from the top down to the one above the cursor. *)
Definition scan_turn (st : editor) (y : Z) : Z :=
  if y >=? cur_y st then y - cur_y st else y - cur_y st + num_lines st.

Definition scanned_before (st : editor) (y x y' x' : Z) : Prop :=
  scan_turn st y < scan_turn st y' \/ (y = y' /\ x < x').

(** ** Files and keys *)

(** A line that [save_file] and [load_file] carry unchanged: no terminator
    and no newline inside, no carriage return or newline at its end. *)
Definition plain_line (ln : line) : Prop :=
  nul_free ln /\ Forall (fun b => b <> "010"%char) ln /\
  last ln <> Some "013"%char.

(** The keys [keys] pressed one after the other, every [fopen] succeeding. *)
Fixpoint feed (k : curses_keys) (keys : list Z) (s : session) : option session :=
  match keys with
  | [] => Some s
  | ch :: rest => key_step k true ch s ≫= feed k rest
  end.

(** The function keys have codes above the range of a byte, as in
    ncurses. *)
Definition function_keys_high (k : curses_keys) : Prop :=
  255 < KEY_UP k /\ 255 < KEY_DOWN k /\ 255 < KEY_LEFT k /\
  255 < KEY_RIGHT k /\ 255 < KEY_PPAGE k /\ 255 < KEY_NPAGE k /\
  255 < KEY_BACKSPACE k /\ 255 < KEY_ENTER k.

Definition printable (ch : Z) : Prop := 32 <= ch < 127.

(** ** Sample states *)

Definition str (s : string) : line := list_ascii_of_string s.

(** A document with its cursor on an 80-column screen, empty history. *)
Definition doc (ls : list line) (x y : Z) : editor :=
  mkEditor ls x y 0 [] [] [] 80 [] 0.

Definition searching (ls : list line) (x y : Z) (q : line) : editor :=
  mkEditor ls x y 0 q [] [] 80 [] 0.

(** The only occurrence of the query lies on the cursor's row, left of the
    cursor. *)
Definition prefix_case : editor :=
  searching [str "xzy"; str "ab cd"] 3 1 (str "ab").

(** The cursor at the last screen column of a 79-byte line. *)
Definition edge_case : editor := doc [repeat "a"%char 79] 79 0.

(** A line at the length cap, the cursor at the last screen column. *)
Definition full_line_case : editor := doc [repeat "a"%char 4094] 79 0.

(** The allocation in [push_undo] is going to fail. *)
Definition failed_capture_case : editor :=
  mkEditor [str "a"] 0 0 0 [] [] [] 80 [false] 0.

(** After a [newline], with the allocation in [do_undo] going to fail. *)
Definition failed_save_case : editor :=
  set_allocs [false] (newline (doc [str "abc"] 1 0)).

(** The fourth tested allocation is going to fail: after an [insert_char]
    (two allocations) and a [do_undo] (one), that is the capture of the
    next edit. *)
Definition failed_second_capture_case : editor :=
  mkEditor [str "abc"] 1 0 0 [] [] [] 80 [true; true; true; false] 0.

(** Something to redo, the cursor at row 0 column 0, and the allocation in
    [push_undo] going to fail: the state after a [newline] at the start of
    ["abc"] has been undone. *)
Definition refused_failed_capture_case : editor :=
  mkEditor [str "abc"] 0 0 0 [] []
    [snapshot (doc [str ""; str "abc"] 0 1)] 80 [false] 0.

(** The key codes of ncurses 6. *)
Definition ncurses_keys : curses_keys := mkKeys 259 258 260 261 339 338 263 343.

(** A session on a 24 by 80 screen, started on a file of two lines, and the
    same after Enter. *)
Definition sample_session : session :=
  boot (Some (str "notes.txt"))
       (Some [str "abc" ++ ["010"%char]; str "de" ++ ["010"%char]]) 24 80 [].

Definition sample_after_enter : session :=
  redraw sample_session (newline (ed sample_session)).

(** A document of 100 lines of two bytes, the cursor in row 10. *)
Definition long_doc : editor := doc (repeat (str "ab") 100) 1 10.

(** A state with something to redo. *)
Definition undone_case : editor :=
  default (doc [] 0 0) (do_undo (newline (doc [str "abc"] 1 0))).

(** ** Worked runs *)

Example insert_char_mid :
  lines (insert_char 88 (doc [str "abc"; str "de"] 1 0)) = [str "aXbc"; str "de"].
Proof. reflexivity. Qed.

Example newline_mid :
  lines (newline (doc [str "abc"; str "de"] 1 0)) = [str "a"; str "bc"; str "de"].
Proof. reflexivity. Qed.

Example backspace_merge :
  let st := backspace (doc [str "abc"; str "de"; str "f"] 0 1) in
  (lines st, cur_x st, cur_y st) = ([str "abcde"; str "f"], 3, 0).
Proof. reflexivity. Qed.

Example backspace_char :
  let st := backspace (doc [str "abc"; str "de"] 2 1) in
  (lines st, cur_x st, cur_y st) = ([str "abc"; str "d"], 1, 1).
Proof. reflexivity. Qed.

Example backspace_at_origin :
  let st := doc [str "abc"] 0 0 in
  same_live (backspace st) st /\ undo_stack (backspace st) = [snapshot st].
Proof. repeat split. Qed.

Example undo_then_redo :
  let st := doc [str "abc"] 1 0 in
  (lines <$> do_undo (insert_char 88 st),
   lines <$> (do_undo (insert_char 88 st) ≫= do_redo))
  = (Some [str "abc"], Some [str "aXbc"]).
Proof. reflexivity. Qed.

Example load_strips_line_ends :
  lines (startup (Some [str "ab" ++ ["010"%char];
                        str "c" ++ ["013"%char; "010"%char];
                        str "d"]) 80 [])
  = [str "ab"; str "c"; str "d"].
Proof. reflexivity. Qed.

Example load_empty_file : lines (startup (Some []) 80 []) = [str ""].
Proof. reflexivity. Qed.

Example search_forward_wraps :
  let st := searching [str "abc"; str "xzy"; str "abx"] 2 2 (str "ab") in
  search_forward st = Some (set_cursor 0 0 st).
Proof. reflexivity. Qed.

(** With the cursor at the end of its line, as in row 2 column 3 of
    ["abx"], the first scan starts past the terminator. *)
Example search_forward_from_line_end :
  let st := searching [str "abc"; str "xzy"; str "abx"] 3 2 (str "ab") in
  cursor_ok st /\ search_forward st = None.
Proof. unfold cursor_ok. vm_compute. repeat split; congruence. Qed.

Example search_forward_next_on_row :
  let st := searching [str "ab ab"] 0 0 (str "ab") in
  search_forward st = Some (set_cursor 3 0 st).
Proof. reflexivity. Qed.

(** ** Allocation *)

Lemma all_true_tail (l : list bool) :
  Forall (fun ok => ok = true) l -> Forall (fun ok => ok = true) (tail l).
Proof. destruct l; simpl; [done|]. intros H. by inversion H. Qed.

Lemma all_true_hd (l : list bool) :
  Forall (fun ok => ok = true) l -> hd true l = true.
Proof. destruct l; simpl; [done|]. intros H. by inversion H. Qed.

Lemma allocs_succeed_hd (st : editor) :
  allocs_succeed st -> hd true (allocs st) = true.
Proof. apply all_true_hd. Qed.

(** ** Facts about [push_undo] *)

(** The capture never touches the document, the cursor or the viewport,
    whether its allocation succeeds or not. *)
Lemma push_undo_same_live (st : editor) : same_live (push_undo st) st.
Proof.
  unfold push_undo, same_live, malloc.
  destruct (undo_count st =? UNDO_DEPTH), (hd true _); simpl; done.
Qed.

Lemma push_undo_env (st : editor) :
  search_query (push_undo st) = search_query st /\
  scr_cols (push_undo st) = scr_cols st /\
  beeps (push_undo st) = beeps st.
Proof.
  unfold push_undo, malloc.
  destruct (undo_count st =? UNDO_DEPTH), (hd true _); simpl; done.
Qed.

Lemma line_at_push_undo (st : editor) (y : Z) :
  line_at (push_undo st) y = line_at st y.
Proof.
  unfold line_at. by destruct (push_undo_same_live st) as (-> & _).
Qed.

Lemma snapshot_push_undo (st : editor) : snapshot (push_undo st) = snapshot st.
Proof.
  destruct (push_undo_same_live st) as (Hl & Hx & Hy & Ht).
  unfold snapshot. by rewrite Hl, Hx, Hy, Ht.
Qed.

Lemma push_undo_captures (st : editor) :
  allocs_succeed st ->
  undo_stack (push_undo st) = make_room (undo_stack st) ++ [snapshot st] /\
  redo_stack (push_undo st) = [] /\
  allocs_succeed (push_undo st).
Proof.
  intros Hok. pose proof (allocs_succeed_hd st Hok) as Hhd.
  pose proof (all_true_tail _ Hok) as Htl.
  unfold push_undo, malloc, make_room, undo_count, allocs_succeed.
  destruct (Z.of_nat (length (undo_stack st)) =? UNDO_DEPTH); simpl;
    rewrite Hhd; simpl; done.
Qed.

(** When the allocation fails the slot is abandoned: nothing is pushed and
    the redo stack is kept, but a full undo stack has lost its oldest
    snapshot all the same. *)
Lemma push_undo_fails (st : editor) (rest : list bool) :
  allocs st = false :: rest ->
  undo_stack (push_undo st) = make_room (undo_stack st) /\
  redo_stack (push_undo st) = redo_stack st /\
  allocs (push_undo st) = rest.
Proof.
  intros Ha. unfold push_undo, malloc, make_room, undo_count.
  destruct (Z.of_nat (length (undo_stack st)) =? UNDO_DEPTH); simpl;
    rewrite Ha; simpl; done.
Qed.

(** ** The edits and the history *)

Local Arguments push_undo : simpl never.

Ltac history_cases :=
  repeat case_match; cbn;
  unfold allocs_succeed in *; cbn;
  repeat split; auto using all_true_tail.

Lemma newline_history (st : editor) :
  allocs_succeed st ->
  undo_stack (newline st) = make_room (undo_stack st) ++ [snapshot st] /\
  redo_stack (newline st) = [] /\
  allocs_succeed (newline st).
Proof.
  intros Hok. destruct (push_undo_captures st Hok) as (Hu & Hr & Ha).
  unfold newline, malloc. cbn. history_cases.
Qed.

Lemma backspace_history (st : editor) :
  allocs_succeed st ->
  undo_stack (backspace st) = make_room (undo_stack st) ++ [snapshot st] /\
  redo_stack (backspace st) = [] /\
  allocs_succeed (backspace st).
Proof.
  intros Hok. destruct (push_undo_captures st Hok) as (Hu & Hr & Ha).
  unfold backspace. cbn. history_cases.
Qed.

(** At the screen edge [insert_char] captures, and the [newline] it calls
    captures the same state again. *)
Lemma insert_char_history (c : Z) (st : editor) :
  allocs_succeed st ->
  undo_stack (insert_char c st) =
    (if cur_x st >=? scr_cols st - 1
     then make_room (make_room (undo_stack st) ++ [snapshot st]) ++ [snapshot st]
     else make_room (undo_stack st) ++ [snapshot st]) /\
  redo_stack (insert_char c st) = [] /\
  allocs_succeed (insert_char c st).
Proof.
  intros Hok. destruct (push_undo_captures st Hok) as (Hu & Hr & Ha).
  destruct (push_undo_same_live st) as (_ & Hx & _).
  destruct (push_undo_env st) as (_ & Hc & _).
  unfold insert_char. rewrite Hx, Hc.
  destruct (cur_x st >=? scr_cols st - 1).
  - destruct (newline_history _ Ha) as (Hu' & Hr' & Ha').
    rewrite Hu', Hu, snapshot_push_undo. done.
  - unfold malloc. cbn. history_cases.
Qed.

Lemma refused_only_captures (e : edit) (st : editor) :
  refused e st = true -> apply_edit e st = push_undo st.
Proof.
  destruct (push_undo_same_live st) as (Hl & Hx & Hy & _).
  destruct (push_undo_env st) as (_ & Hc & _).
  destruct e as [c| |]; simpl; intros Hr.
  - apply andb_prop in Hr as [H1 H2].
    unfold insert_char. rewrite Hx, Hc, Hy, line_at_push_undo.
    destruct (Z.geb_spec (cur_x st) (scr_cols st - 1)); [lia|].
    by rewrite H2.
  - apply andb_prop in Hr as [H1 H2].
    unfold backspace. rewrite Hx, Hy, !line_at_push_undo.
    destruct (Z.gtb_spec (cur_x st) 0); [lia|].
    destruct (Z.gtb_spec (cur_y st) 0); [|done].
    apply orb_prop in H2 as [H2|H2]; [lia|]. by rewrite H2.
  - unfold newline, num_lines. rewrite Hl. unfold num_lines in Hr. by rewrite Hr.
Qed.

(** *** With the allocation of the capture alone *)

Lemma last_make_room (u : list UndoSnapshot) (s : UndoSnapshot) :
  last u = Some s -> last (make_room u) = Some s.
Proof.
  unfold make_room, drop_oldest.
  destruct (Z.eqb_spec (Z.of_nat (length u)) UNDO_DEPTH) as [E|]; [|done].
  destruct u as [|a [|b t]]; [done| |done].
  simpl in E. unfold UNDO_DEPTH in E. lia.
Qed.

Lemma push_undo_stacks (st : editor) :
  undo_stack (push_undo st)
    = make_room (undo_stack st) ++ (if hd true (allocs st) then [snapshot st] else []) /\
  redo_stack (push_undo st) = (if hd true (allocs st) then [] else redo_stack st).
Proof.
  unfold push_undo, malloc, make_room, undo_count.
  destruct (Z.of_nat (length (undo_stack st)) =? UNDO_DEPTH); simpl;
    destruct (hd true (allocs st)); simpl; rewrite ?app_nil_r; done.
Qed.

Lemma push_undo_succeeds (st : editor) :
  next_alloc_ok st ->
  undo_stack (push_undo st) = make_room (undo_stack st) ++ [snapshot st] /\
  redo_stack (push_undo st) = [].
Proof.
  unfold next_alloc_ok. intros Hhd.
  destruct (push_undo_stacks st) as (Hu & Hr). by rewrite Hu, Hr, Hhd.
Qed.

(** A second capture of the same state, whether its allocation succeeds or
    not, leaves that state on top of the undo stack and the redo stack
    empty. *)
Lemma push_undo_again (st : editor) :
  last (undo_stack st) = Some (snapshot st) -> redo_stack st = [] ->
  last (undo_stack (push_undo st)) = Some (snapshot st) /\
  redo_stack (push_undo st) = [].
Proof.
  intros Hlast Hredo. pose proof (last_make_room _ _ Hlast) as Hroom.
  destruct (push_undo_stacks st) as (Hu & Hr). rewrite Hu, Hr.
  destruct (hd true (allocs st)); rewrite ?app_nil_r, ?last_snoc; done.
Qed.

(** The edits touch the stacks through [push_undo] only. *)
Lemma newline_stacks (st : editor) :
  undo_stack (newline st) = undo_stack (push_undo st) /\
  redo_stack (newline st) = redo_stack (push_undo st).
Proof. unfold newline, malloc. cbn. repeat case_match; done. Qed.

Lemma backspace_stacks (st : editor) :
  undo_stack (backspace st) = undo_stack (push_undo st) /\
  redo_stack (backspace st) = redo_stack (push_undo st).
Proof. unfold backspace. cbn. repeat case_match; done. Qed.

Lemma insert_char_stacks (c : Z) (st : editor) :
  (cur_x st >= scr_cols st - 1 ->
     undo_stack (insert_char c st) = undo_stack (push_undo (push_undo st)) /\
     redo_stack (insert_char c st) = redo_stack (push_undo (push_undo st))) /\
  (cur_x st < scr_cols st - 1 ->
     undo_stack (insert_char c st) = undo_stack (push_undo st) /\
     redo_stack (insert_char c st) = redo_stack (push_undo st)).
Proof.
  destruct (push_undo_same_live st) as (_ & Hx & _).
  destruct (push_undo_env st) as (_ & Hc & _).
  unfold insert_char. rewrite Hx, Hc.
  destruct (Z.geb_spec (cur_x st) (scr_cols st - 1)); (split; [|intros; try lia]).
  - intros _. apply newline_stacks.
  - intros; lia.
  - unfold malloc. cbn. repeat case_match; done.
Qed.

Lemma edit_captures (e : edit) (st : editor) :
  next_alloc_ok st ->
  last (undo_stack (apply_edit e st)) = Some (snapshot st) /\
  redo_stack (apply_edit e st) = [].
Proof.
  intros Hok. destruct (push_undo_succeeds st Hok) as (Hu & Hr).
  assert (H1 : last (undo_stack (push_undo st)) = Some (snapshot st))
    by (rewrite Hu; apply last_snoc).
  destruct e as [c| |]; simpl.
  - destruct (insert_char_stacks c st) as (Hedge & Hleft).
    destruct (Z.lt_ge_cases (cur_x st) (scr_cols st - 1)) as [Hlt|Hge].
    + destruct (Hleft Hlt) as (-> & ->). done.
    + destruct Hedge as (-> & ->); [lia|].
      rewrite <- (snapshot_push_undo st). apply push_undo_again; [|done].
      by rewrite snapshot_push_undo.
  - destruct (backspace_stacks st) as (-> & ->). done.
  - destruct (newline_stacks st) as (-> & ->). done.
Qed.

(** ** [do_undo] and [do_redo] step by step *)

Lemma do_undo_top (st : editor) (s : UndoSnapshot) (ls : list line) :
  last (undo_stack st) = Some s ->
  snap_lines s = Some ls ->
  do_undo st =
    Some (mkEditor ls (snap_cur_x s) (snap_cur_y s) (snap_top_line s)
            (search_query st) (removelast (undo_stack st))
            (save_current (hd true (allocs st)) st (redo_stack st))
            (scr_cols st) (tail (allocs st)) (beeps st)).
Proof.
  intros Hlast Hs. unfold do_undo, malloc, restore. rewrite Hlast. cbn.
  rewrite Hs. f_equal.
Qed.

Lemma do_redo_top (st : editor) (r : UndoSnapshot) (ls : list line) :
  last (redo_stack st) = Some r ->
  snap_lines r = Some ls ->
  do_redo st =
    Some (mkEditor ls (snap_cur_x r) (snap_cur_y r) (snap_top_line r)
            (search_query st)
            (save_current (hd true (allocs st)) st (undo_stack st))
            (removelast (redo_stack st))
            (scr_cols st) (tail (allocs st)) (beeps st)).
Proof.
  intros Hlast Hs. unfold do_redo, malloc, restore. rewrite Hlast. cbn.
  rewrite Hs. f_equal.
Qed.

Lemma do_undo_nothing (st : editor) :
  undo_stack st = [] -> do_undo st = Some (beep st).
Proof. intros H. unfold do_undo. by rewrite H. Qed.

Lemma do_redo_nothing (st : editor) :
  redo_stack st = [] -> do_redo st = Some (beep st).
Proof. intros H. unfold do_redo. by rewrite H. Qed.

Lemma last_save_current (st : editor) (stk : list UndoSnapshot) :
  last (save_current true st stk) = Some (snapshot st).
Proof.
  unfold save_current. destruct (_ <? _); by rewrite last_snoc.
Qed.

Lemma removelast_save_current (st : editor) (stk : list UndoSnapshot) :
  Z.of_nat (length stk) < UNDO_DEPTH ->
  removelast (save_current true st stk) = stk.
Proof.
  intros H. unfold save_current.
  destruct (Z.ltb_spec (Z.of_nat (length stk)) UNDO_DEPTH); [|lia].
  apply removelast_last.
Qed.

Lemma snoc_removelast (stk : list UndoSnapshot) (s : UndoSnapshot) :
  last stk = Some s -> removelast stk ++ [s] = stk.
Proof.
  induction stk as [|a [|b t] IH]; intros H.
  - discriminate.
  - by injection H as ->.
  - change (a :: (removelast (b :: t) ++ [s]) = a :: b :: t).
    f_equal. by apply IH.
Qed.

Lemma last_elem_of (stk : list UndoSnapshot) (s : UndoSnapshot) :
  last stk = Some s -> s ∈ stk.
Proof.
  intros H. rewrite <- (snoc_removelast _ _ H).
  apply elem_of_app. right. constructor.
Qed.

(** ** Snapshots hold their lines *)

Lemma Forall_holds_tail (stk : list UndoSnapshot) :
  Forall holds_lines stk -> Forall holds_lines (tail stk).
Proof. destruct stk; simpl; [done|]. intros H. by inversion H. Qed.

Lemma Forall_holds_removelast (stk : list UndoSnapshot) :
  Forall holds_lines stk -> Forall holds_lines (removelast stk).
Proof.
  induction stk as [|a [|b t] IH]; intros H; simpl; [done|done|].
  inversion H; subst. constructor; [done|]. by apply IH.
Qed.

Lemma Forall_holds_make_room (u : list UndoSnapshot) :
  Forall holds_lines u -> Forall holds_lines (make_room u).
Proof.
  unfold make_room, drop_oldest. destruct (_ =? _); auto using Forall_holds_tail.
Qed.

Lemma length_removelast_snoc (stk : list UndoSnapshot) (s : UndoSnapshot) :
  last stk = Some s -> length stk = S (length (removelast stk)).
Proof.
  intros H. rewrite <- (snoc_removelast _ _ H) at 1.
  rewrite length_app. simpl. lia.
Qed.

Lemma length_make_room (u : list UndoSnapshot) :
  Z.of_nat (length u) <= UNDO_DEPTH ->
  Z.of_nat (length (make_room u)) < UNDO_DEPTH /\
  Z.of_nat (length (make_room u)) <= Z.of_nat (length u).
Proof.
  intros H. unfold make_room, drop_oldest.
  destruct (Z.eqb_spec (Z.of_nat (length u)) UNDO_DEPTH) as [E|E]; [|lia].
  destruct u; simpl in *; unfold UNDO_DEPTH in *; lia.
Qed.

Lemma snapshot_holds_lines (st : editor) : holds_lines (snapshot st).
Proof. by eexists. Qed.

Lemma push_undo_history_ok (st : editor) : history_ok st -> history_ok (push_undo st).
Proof.
  intros (Hn & Hu & Hr). destruct (push_undo_stacks st) as (Eu & Er).
  unfold history_ok, undo_count, redo_count in *. rewrite Eu, Er.
  destruct (length_make_room (undo_stack st)) as (H1 & H2); [lia|].
  pose proof (Forall_holds_make_room _ Hu) as Hm.
  destruct (hd true (allocs st)); rewrite ?app_nil_r, ?length_app; cbn.
  - split; [lia|]. split; [|done].
    apply Forall_app. split; [done|].
    constructor; [apply snapshot_holds_lines | constructor].
  - split; [lia|]. done.
Qed.

Lemma stacks_history_ok (a b : editor) :
  undo_stack a = undo_stack b /\ redo_stack a = redo_stack b ->
  history_ok b -> history_ok a.
Proof.
  intros (Hu & Hr). unfold history_ok, undo_count, redo_count.
  by rewrite Hu, Hr.
Qed.

Lemma newline_history_ok (st : editor) : history_ok st -> history_ok (newline st).
Proof.
  intros H. apply (stacks_history_ok _ _ (newline_stacks st)).
  by apply push_undo_history_ok.
Qed.

Lemma backspace_history_ok (st : editor) : history_ok st -> history_ok (backspace st).
Proof.
  intros H. apply (stacks_history_ok _ _ (backspace_stacks st)).
  by apply push_undo_history_ok.
Qed.

Lemma insert_char_history_ok (c : Z) (st : editor) :
  history_ok st -> history_ok (insert_char c st).
Proof.
  intros H. destruct (insert_char_stacks c st) as (Hedge & Hleft).
  destruct (Z.lt_ge_cases (cur_x st) (scr_cols st - 1)) as [Hlt|Hge].
  - apply (stacks_history_ok _ _ (Hleft Hlt)). by apply push_undo_history_ok.
  - apply (stacks_history_ok _ (push_undo (push_undo st))); [apply Hedge; lia|].
    by apply push_undo_history_ok, push_undo_history_ok.
Qed.

(** With a snapshot to restore on one stack, the other stack is not full:
    its "drop oldest" branch is not taken, and what is saved holds its
    lines or is not pushed at all. *)
Lemma save_current_holds (ok : bool) (st : editor) (stk : list UndoSnapshot) :
  Z.of_nat (length stk) < UNDO_DEPTH ->
  Forall holds_lines stk ->
  Forall holds_lines (save_current ok st stk) /\
  Z.of_nat (length (save_current ok st stk)) <= Z.of_nat (length stk) + 1.
Proof.
  intros Hlen Hs. unfold save_current.
  destruct (Z.ltb_spec (Z.of_nat (length stk)) UNDO_DEPTH); [|lia].
  destruct ok; [|split; [done|lia]].
  rewrite length_app. cbn. split; [|lia].
  apply Forall_app. split; [done|].
  constructor; [apply snapshot_holds_lines | constructor].
Qed.

Lemma do_undo_history_ok (st st' : editor) :
  history_ok st -> do_undo st = Some st' -> history_ok st'.
Proof.
  intros (Hn & Hu & Hr). unfold do_undo, malloc, restore.
  destruct (last (undo_stack st)) as [s|] eqn:Hlast; cbn.
  - destruct (snap_lines s) as [ls|] eqn:Hs; [|done].
    intros [= <-]. pose proof (length_removelast_snoc _ _ Hlast) as Hlen.
    unfold undo_count, redo_count in Hn.
    destruct (save_current_holds (hd true (allocs st))
                (set_allocs (tail (allocs st)) st) (redo_stack st))
      as (H1 & H2); [lia|done|].
    unfold history_ok, undo_count, redo_count. cbn.
    split; [lia|]. split; [by apply Forall_holds_removelast | done].
  - intros [= <-]. done.
Qed.

Lemma do_redo_history_ok (st st' : editor) :
  history_ok st -> do_redo st = Some st' -> history_ok st'.
Proof.
  intros (Hn & Hu & Hr). unfold do_redo, malloc, restore.
  destruct (last (redo_stack st)) as [s|] eqn:Hlast; cbn.
  - destruct (snap_lines s) as [ls|] eqn:Hs; [|done].
    intros [= <-]. pose proof (length_removelast_snoc _ _ Hlast) as Hlen.
    unfold undo_count, redo_count in Hn.
    destruct (save_current_holds (hd true (allocs st))
                (set_allocs (tail (allocs st)) st) (undo_stack st))
      as (H1 & H2); [lia|done|].
    unfold history_ok, undo_count, redo_count. cbn.
    split; [lia|]. split; [done | by apply Forall_holds_removelast].
  - intros [= <-]. done.
Qed.

Lemma startup_history_ok file cols plan : history_ok (startup file cols plan).
Proof.
  unfold startup, load_file, history_ok, undo_count, redo_count.
  destruct file as [records|]; [destruct (map _ _)|]; cbn;
    unfold UNDO_DEPTH; (split; [lia|done]).
Qed.

Lemma reachable_history_ok (st : editor) : reachable st -> history_ok st.
Proof.
  induction 1; eauto using startup_history_ok, insert_char_history_ok,
    backspace_history_ok, newline_history_ok, do_undo_history_ok,
    do_redo_history_ok.
Qed.

(** In a state reached from the loaded file, the snapshot that [do_undo]
    is going to restore holds its lines, whichever allocations failed on
    the way. *)
Lemma reachable_top_holds_lines (st : editor) (s : UndoSnapshot) :
  reachable st -> last (undo_stack st) = Some s -> holds_lines s.
Proof.
  intros H Hlast. destruct (reachable_history_ok st H) as (_ & Hu & _).
  apply (proj1 (Forall_forall _ _) Hu s), last_elem_of, Hlast.
Qed.

(** ** Undo and redo *)

(** C1, as the code has it.  Whatever the edit ([insert_char], [backspace]
    or [newline]), the screen width and the depth of the undo stack: when
    the allocation that [push_undo] makes for the snapshot succeeds,
    [do_undo] called right after the edit returns and puts back the
    document lines, the cursor column and row and the viewport top that the
    edit found.  Each edit calls [push_undo] before it mutates, so the
    snapshot on top of the undo stack is the state before the edit.  No
    other allocation matters: those of the edit itself, of the second
    capture of an [insert_char] at the screen edge and of [do_undo] may
    fail.  A full undo stack does not matter either, since the capture only
    drops its oldest snapshot. *)
Theorem undo_after_edit_restores (e : edit) (st : editor) :
  next_alloc_ok st ->
  exists st', do_undo (apply_edit e st) = Some st' /\ same_live st' st.
Proof.
  intros Hok. destruct (edit_captures e st Hok) as (Hlast & _).
  eexists. split.
  - by apply (do_undo_top _ _ (lines st) Hlast).
  - done.
Qed.

Lemma undo_after_edit_restores_witness :
  exists st',
    do_undo (apply_edit (InsertChar 88) (doc [str "abc"; str "de"] 1 0)) = Some st' /\
    same_live st' (doc [str "abc"; str "de"] 1 0).
Proof.
  apply (undo_after_edit_restores (InsertChar 88) (doc [str "abc"; str "de"] 1 0)).
  reflexivity.
Defined.

(** C1 as stated fails: when the allocation of the capture fails the edit
    goes on with nothing stored.  Here the undo stack, empty before, is
    empty afterwards, and [do_undo] only calls [beep()]: the inserted byte
    stays in the document. *)
Lemma undo_after_failed_capture_only_beeps :
  undo_count failed_capture_case < UNDO_DEPTH /\
  lines failed_capture_case = [str "a"] /\
  lines (insert_char 98 failed_capture_case) = [str "ba"] /\
  do_undo (insert_char 98 failed_capture_case)
    = Some (beep (insert_char 98 failed_capture_case)) /\
  forall st', do_undo (insert_char 98 failed_capture_case) = Some st' ->
    ~ same_live st' failed_capture_case.
Proof.
  split; [by vm_compute|]. split; [reflexivity|]. split; [reflexivity|].
  split; [reflexivity|].
  intros st' H. assert (E : lines st' = [str "ba"]).
  { change (do_undo (insert_char 98 failed_capture_case))
      with (Some (beep (insert_char 98 failed_capture_case))) in H.
    by injection H as <-. }
  intros (Hl & _). rewrite E in Hl. discriminate.
Qed.

(** C2, as the code has it.  In a state whose undo stack is not empty, its
    top snapshot [s] holding its lines (as it does in every state reached
    from the loaded file, [reachable_top_holds_lines]): when the allocation
    that [do_undo] makes for the copy of the live state succeeds, [do_undo]
    followed at once by [do_redo] both return and leave the live state as
    it was before the [do_undo]: the same document lines, cursor column and
    row, and viewport top.  The query, the screen width and the count of
    beeps are unchanged too.  The redo stack is back to what it was when it
    was not full, and the undo stack when it was within its depth and the
    allocation of [do_redo] succeeds as well. *)
Theorem undo_then_redo_round_trip (st : editor) (s : UndoSnapshot) :
  last (undo_stack st) = Some s ->
  holds_lines s ->
  next_alloc_ok st ->
  exists st1 st2,
    do_undo st = Some st1 /\ do_redo st1 = Some st2 /\
    same_live st2 st /\
    search_query st2 = search_query st /\
    scr_cols st2 = scr_cols st /\
    beeps st2 = beeps st /\
    (next_alloc_ok st1 -> undo_count st <= UNDO_DEPTH ->
       undo_stack st2 = undo_stack st) /\
    (redo_count st < UNDO_DEPTH -> redo_stack st2 = redo_stack st).
Proof.
  intros Hlast [ls Hls] Hhd. unfold next_alloc_ok in *.
  eexists. eexists. split; [by apply (do_undo_top _ _ ls Hlast)|].
  rewrite Hhd. split.
  - apply (do_redo_top _ (snapshot st) (lines st)); cbn;
      [apply last_save_current | done].
  - cbn. split_and!; try done.
    + intros Htl Hcap. rewrite Htl.
      pose proof (snoc_removelast _ _ Hlast) as Hsnoc.
      assert (Hlen : Z.of_nat (length (removelast (undo_stack st))) < UNDO_DEPTH).
      { unfold undo_count in Hcap. rewrite <- Hsnoc in Hcap.
        rewrite length_app in Hcap. simpl in Hcap. lia. }
      unfold save_current.
      destruct (Z.ltb_spec (Z.of_nat (length (removelast (undo_stack st)))) UNDO_DEPTH);
        [|lia].
      rewrite <- Hsnoc at 2. f_equal. f_equal.
      destruct s; simpl in *. unfold snapshot; simpl. by subst.
    + intros Hcap. by apply removelast_save_current.
Qed.

Lemma undo_then_redo_round_trip_witness :
  exists st1 st2,
    do_undo (newline (doc [str "abc"] 1 0)) = Some st1 /\
    do_redo st1 = Some st2 /\
    same_live st2 (newline (doc [str "abc"] 1 0)) /\
    search_query st2 = search_query (newline (doc [str "abc"] 1 0)) /\
    scr_cols st2 = scr_cols (newline (doc [str "abc"] 1 0)) /\
    beeps st2 = beeps (newline (doc [str "abc"] 1 0)) /\
    undo_stack st2 = undo_stack (newline (doc [str "abc"] 1 0)) /\
    redo_stack st2 = redo_stack (newline (doc [str "abc"] 1 0)).
Proof.
  destruct (undo_then_redo_round_trip (newline (doc [str "abc"] 1 0))
              (snapshot (doc [str "abc"] 1 0)))
    as (st1 & st2 & H1 & H2 & H3 & H4 & H5 & H6 & H7 & H8).
  - reflexivity.
  - eexists. reflexivity.
  - reflexivity.
  - exists st1, st2. split_and!; try assumption.
    + apply H7; [|by vm_compute].
      vm_compute in H1. injection H1 as <-. reflexivity.
    + apply H8. by vm_compute.
Defined.

(** C2 as stated fails: when the allocation in [do_undo] fails, the live
    state is not saved for redo.  Here the undo stack holds one snapshot
    and the redo stack is empty, so nothing is evicted; [do_undo] restores
    the document, and [do_redo] then finds nothing to redo and only calls
    [beep()]. *)
Lemma redo_after_failed_save_only_beeps :
  undo_stack failed_save_case = [snapshot (doc [str "abc"] 1 0)] /\
  redo_stack failed_save_case = [] /\
  lines failed_save_case = [str "a"; str "bc"] /\
  exists st1,
    do_undo failed_save_case = Some st1 /\
    lines st1 = [str "abc"] /\
    redo_stack st1 = [] /\
    do_redo st1 = Some (beep st1) /\
    ~ same_live (beep st1) failed_save_case.
Proof.
  split; [reflexivity|]. split; [reflexivity|]. split; [reflexivity|].
  eexists. split; [reflexivity|]. split; [reflexivity|].
  split; [reflexivity|]. split; [reflexivity|].
  intros (Hl & _). discriminate Hl.
Qed.

(** C3, as the code has it.  When [push_undo] has run with its allocation
    succeeding, the redo stack is empty.  So in the sequence edit [a];
    [do_undo]; edit [b]; [do_redo], for any two edits: the [do_undo]
    returns when the capture of [a] succeeded, and whatever state [st1] it
    returns, when the capture of [b] succeeds the final [do_redo] finds the
    redo stack empty: all it does is [beep()], every other field of the
    state being what edit [b] left, and the undone [a] is not brought
    back. *)
Theorem new_edit_clears_redo (st : editor) :
  (next_alloc_ok st -> redo_stack (push_undo st) = []) /\
  forall a b : edit,
    (next_alloc_ok st -> is_Some (do_undo (apply_edit a st))) /\
    forall st1,
      do_undo (apply_edit a st) = Some st1 ->
      next_alloc_ok st1 ->
      redo_stack (apply_edit b st1) = [] /\
      do_redo (apply_edit b st1) = Some (beep (apply_edit b st1)).
Proof.
  split; [intros Hok; apply (push_undo_succeeds st Hok)|].
  intros a b. split.
  - intros Hok. destruct (edit_captures a st Hok) as (Hlast & _).
    eexists. by apply (do_undo_top _ _ (lines st) Hlast).
  - intros st1 _ Hok. destruct (edit_captures b st1 Hok) as (_ & Hr).
    split; [done|]. by apply do_redo_nothing.
Qed.

Lemma new_edit_clears_redo_witness :
  redo_stack (push_undo (doc [str "abc"] 1 0)) = [] /\
  exists st1,
    do_undo (insert_char 88 (doc [str "abc"] 1 0)) = Some st1 /\
    redo_stack st1 <> [] /\
    redo_stack (backspace st1) = [] /\
    do_redo (backspace st1) = Some (beep (backspace st1)).
Proof.
  destruct (new_edit_clears_redo (doc [str "abc"] 1 0)) as (H1 & H2).
  split; [apply H1; reflexivity|].
  destruct (H2 (InsertChar 88) Backspace) as (Hsome & H3).
  destruct (Hsome eq_refl) as [st1 Hu].
  exists st1. split; [exact Hu|]. split.
  - vm_compute in Hu. injection Hu as <-. discriminate.
  - apply (H3 st1 Hu). vm_compute in Hu. injection Hu as <-. reflexivity.
Defined.

(** C3 as stated fails: when the allocation in [push_undo] fails, it
    returns before the redo stack is cleared.  Here [insert_char] adds an
    ['X'] and [do_undo] takes it back; the capture of the [backspace] that
    follows fails, the redo stack keeps its snapshot, and [do_redo] brings
    the undone ['X'] back without a [beep()]. *)
Lemma redo_survives_failed_capture :
  exists st1 st2,
    do_undo (insert_char 88 failed_second_capture_case) = Some st1 /\
    lines st1 = [str "abc"] /\
    hd true (allocs st1) = false /\
    redo_stack (push_undo st1) <> [] /\
    redo_stack (backspace st1) <> [] /\
    do_redo (backspace st1) = Some st2 /\
    lines st2 = [str "aXbc"] /\
    beeps st2 = 0%nat /\
    st2 <> beep (backspace st1).
Proof.
  eexists. eexists. split; [vm_compute; reflexivity|].
  split; [reflexivity|]. split; [reflexivity|].
  split; [by vm_compute|]. split; [by vm_compute|].
  split; [vm_compute; reflexivity|]. split; [reflexivity|]. split; [reflexivity|].
  intros E. apply (f_equal beeps) in E. by vm_compute in E.
Qed.

(** ** The shape of the document after an edit *)

Lemma split_rows_shape (ls : list line) (y x : nat) (ln : line) :
  ls !! y = Some ln ->
  take (S y) (<[y:=take x ln]> ls) ++ drop x ln :: drop (S y) (<[y:=take x ln]> ls)
  = split_rows ls y x.
Proof.
  intros Hy. unfold split_rows. rewrite Hy. simpl.
  pose proof (lookup_lt_Some _ _ _ Hy) as Hlt.
  rewrite drop_insert_lt by lia.
  rewrite (take_S_r _ y (take x ln)) by (by apply list_lookup_insert_eq).
  rewrite take_insert_ge by lia.
  by rewrite <- app_assoc.
Qed.

(** A split moves no byte: the rows read in order spell the same text. *)
Lemma concat_split_rows (ls : list line) (y x : nat) :
  (y < length ls)%nat -> concat (split_rows ls y x) = concat ls.
Proof.
  intros Hlt. destruct (lookup_lt_is_Some_2 ls y Hlt) as [ln Hy].
  unfold split_rows. rewrite Hy. simpl.
  rewrite <- (take_drop_middle ls y ln Hy) at 3.
  rewrite !concat_app. simpl.
  by rewrite (app_assoc (take x ln)), take_drop.
Qed.

Lemma length_split_rows (ls : list line) (y x : nat) :
  (y < length ls)%nat -> length (split_rows ls y x) = S (length ls).
Proof.
  intros Hlt. unfold split_rows.
  rewrite length_app, length_take. simpl. rewrite length_drop. lia.
Qed.

Lemma cursor_row (st : editor) :
  cursor_ok st ->
  lines st !! Z.to_nat (cur_y st) = Some (line_at st (cur_y st)) /\
  (Z.to_nat (cur_y st) < length (lines st))%nat.
Proof.
  intros [Hy _]. unfold num_lines in Hy.
  assert (Hlt : (Z.to_nat (cur_y st) < length (lines st))%nat) by lia.
  split; [|done]. unfold line_at.
  by destruct (lookup_lt_is_Some_2 _ _ Hlt) as [ln ->].
Qed.

(** What [newline] leaves: the state after the capture when it returns
    early, and otherwise the split. *)
Lemma newline_outcome (st : editor) :
  cursor_ok st ->
  same_live (newline st) st \/
  (lines (newline st) =
     split_rows (lines st) (Z.to_nat (cur_y st)) (Z.to_nat (cur_x st)) /\
   cur_x (newline st) = 0 /\ cur_y (newline st) = cur_y st + 1 /\
   top_line (newline st) = top_line st).
Proof.
  intros Hc. destruct (cursor_row st Hc) as [Hrow _].
  destruct (push_undo_same_live st) as (Hl & Hx & Hy & Ht).
  unfold newline, malloc. cbn. unfold num_lines.
  rewrite line_at_push_undo, Hl, Hx, Hy.
  repeat case_match; cbn; rewrite ?Hl, ?Hx, ?Hy, ?Ht.
  1-2: by left.
  right. by rewrite (split_rows_shape _ _ _ _ Hrow).
Qed.



Lemma backspace_merges (st : editor) :
  cursor_ok st -> cur_x st = 0 -> 0 < cur_y st ->
  strlen (line_at st (cur_y st - 1)) + strlen (line_at st (cur_y st)) + 1 < MAX_COL ->
  lines (backspace st) =
    delete (Z.to_nat (cur_y st))
      (<[ (Z.to_nat (cur_y st) - 1)%nat :=
            line_at st (cur_y st - 1) ++ line_at st (cur_y st) ]> (lines st)) /\
  cur_x (backspace st) = strlen (line_at st (cur_y st - 1)) /\
  cur_y (backspace st) = cur_y st - 1 /\
  top_line (backspace st) = top_line st.
Proof.
  intros Hc Hx Hy Hfit.
  destruct (push_undo_same_live st) as (Hl & Hcx & Hcy & Ht).
  unfold backspace. rewrite Hcx, Hcy, !line_at_push_undo.
  destruct (Z.gtb_spec (cur_x st) 0); [lia|].
  destruct (Z.gtb_spec (cur_y st) 0); [|lia].
  destruct (Z.geb_spec (strlen (line_at st (cur_y st - 1)) +
                        strlen (line_at st (cur_y st)) + 1) MAX_COL); [lia|].
  cbn. by rewrite Hl, Ht.
Qed.




(** ** Refused edits *)

(** C7, as the code has it.  An edit that would exceed a capacity limit
    returns after its capture without touching the document, the cursor or
    the viewport: [insert_char] on a line at the length cap
    ([len + 2 >= MAX_COL]) when the cursor column is below the screen width
    minus one; [newline] when the line count is at its cap
    ([num_lines + 1 >= MAX_LINES]); the [backspace] merge whose combined
    length is over the cap ([prev_len + cur_len + 1 >= MAX_COL]). *)
Theorem capacity_refusals (st : editor) :
  (forall c : Z,
     cur_x st < scr_cols st - 1 ->
     strlen (line_at st (cur_y st)) + 2 >= MAX_COL ->
     same_live (insert_char c st) st) /\
  (num_lines st + 1 >= MAX_LINES -> same_live (newline st) st) /\
  (cur_x st <= 0 -> 0 < cur_y st ->
     strlen (line_at st (cur_y st - 1)) + strlen (line_at st (cur_y st)) + 1 >= MAX_COL ->
     same_live (backspace st) st).
Proof.
  split; [|split].
  - intros c Hx Hlen.
    pose proof (refused_only_captures (InsertChar c) st) as H. simpl in H.
    rewrite H; [apply push_undo_same_live|].
    apply andb_true_intro. split; [lia|].
    by destruct (Z.geb_spec (strlen (line_at st (cur_y st)) + 2) MAX_COL); [|lia].
  - intros Hn.
    pose proof (refused_only_captures Newline st) as H. simpl in H.
    rewrite H; [apply push_undo_same_live|].
    by destruct (Z.geb_spec (num_lines st + 1) MAX_LINES); [|lia].
  - intros Hx Hy Hlen.
    pose proof (refused_only_captures Backspace st) as H. simpl in H.
    rewrite H; [apply push_undo_same_live|].
    apply andb_true_intro. split; [lia|]. apply orb_true_intro. right.
    by destruct (Z.geb_spec (strlen (line_at st (cur_y st - 1)) +
                             strlen (line_at st (cur_y st)) + 1) MAX_COL); [|lia].
Qed.

Lemma capacity_refusals_witness :
  same_live (insert_char 98 (doc [str "xy"; repeat "a"%char 4094] 0 1))
            (doc [str "xy"; repeat "a"%char 4094] 0 1) /\
  same_live (backspace (doc [str "xy"; repeat "a"%char 4094] 0 1))
            (doc [str "xy"; repeat "a"%char 4094] 0 1) /\
  same_live (newline (doc (repeat (str "") (Z.to_nat MAX_LINES)) 0 0))
            (doc (repeat (str "") (Z.to_nat MAX_LINES)) 0 0).
Proof.
  destruct (capacity_refusals (doc [str "xy"; repeat "a"%char 4094] 0 1))
    as (H1 & _ & H3).
  destruct (capacity_refusals (doc (repeat (str "") (Z.to_nat MAX_LINES)) 0 0))
    as (_ & H2 & _).
  split; [|split].
  - apply (H1 98); vm_compute; congruence.
  - apply H3; vm_compute; congruence.
  - apply H2; vm_compute; congruence.
Defined.

(** C7 as stated fails for [insert_char]: on a line at the length cap with
    the cursor at the last screen column, [insert_char] splits the line and
    moves the cursor. *)
Lemma insert_char_on_full_line_can_split :
  cursor_ok full_line_case /\
  strlen (line_at full_line_case (cur_y full_line_case)) + 2 >= MAX_COL /\
  lines (insert_char 98 full_line_case) <> lines full_line_case /\
  num_lines (insert_char 98 full_line_case) = 2 /\
  (cur_x (insert_char 98 full_line_case), cur_y (insert_char 98 full_line_case))
    = (0, 1).
Proof. unfold cursor_ok. repeat split; vm_compute; congruence. Qed.

(** C9, as the code has it.  Every call of [insert_char], [backspace] or
    [newline] starts with the capture, before it looks whether the edit
    can take effect: an edit that takes no effect ([refused]) is the call
    of [push_undo] and nothing else, and leaves the document, the cursor
    and the viewport unchanged.  When the allocation of the capture
    succeeds, the redo stack is empty afterwards and the state before the
    edit is on top of the undo stack, for every edit; after a refused one
    the undo stack holds one more snapshot, its oldest one dropped if it
    was full. *)
Theorem every_edit_captures_first (e : edit) (st : editor) :
  (refused e st = true ->
     apply_edit e st = push_undo st /\ same_live (apply_edit e st) st) /\
  (next_alloc_ok st ->
     redo_stack (apply_edit e st) = [] /\
     last (undo_stack (apply_edit e st)) = Some (snapshot st) /\
     (refused e st = true ->
        undo_stack (apply_edit e st) = make_room (undo_stack st) ++ [snapshot st])).
Proof.
  split.
  - intros Hr. rewrite (refused_only_captures e st Hr).
    split; [done | apply push_undo_same_live].
  - intros Hok. destruct (edit_captures e st Hok) as (Hlast & Hredo).
    split; [done|]. split; [done|].
    intros Hr. rewrite (refused_only_captures e st Hr).
    apply (push_undo_succeeds st Hok).
Qed.

Lemma every_edit_captures_first_witness :
  apply_edit Backspace (doc [str "abc"] 0 0) = push_undo (doc [str "abc"] 0 0) /\
  same_live (apply_edit Backspace (doc [str "abc"] 0 0)) (doc [str "abc"] 0 0) /\
  redo_stack (apply_edit Backspace (doc [str "abc"] 0 0)) = [] /\
  last (undo_stack (apply_edit Backspace (doc [str "abc"] 0 0)))
    = Some (snapshot (doc [str "abc"] 0 0)) /\
  undo_stack (apply_edit Backspace (doc [str "abc"] 0 0))
    = make_room (undo_stack (doc [str "abc"] 0 0)) ++ [snapshot (doc [str "abc"] 0 0)].
Proof.
  destruct (every_edit_captures_first Backspace (doc [str "abc"] 0 0))
    as (H1 & H2).
  destruct (H1 eq_refl) as (H1a & H1b).
  destruct (H2 eq_refl) as (H2a & H2b & H2c).
  split; [exact H1a|]. split; [exact H1b|]. split; [exact H2a|].
  split; [exact H2b|]. apply H2c. reflexivity.
Defined.

(** C9 as stated fails: when the allocation in [push_undo] fails, the call
    pushes nothing and keeps the redo stack.  Here a [backspace] at row 0
    column 0, with something to redo, leaves both stacks as they were. *)
Lemma refused_edit_can_keep_redo :
  do_undo (newline (doc [str "abc"] 0 0))
    = Some (set_allocs [] refused_failed_capture_case) /\
  refused Backspace refused_failed_capture_case = true /\
  redo_stack refused_failed_capture_case <> [] /\
  redo_stack (backspace refused_failed_capture_case)
    = redo_stack refused_failed_capture_case /\
  undo_stack (backspace refused_failed_capture_case)
    = undo_stack refused_failed_capture_case /\
  last (undo_stack (backspace refused_failed_capture_case)) = None.
Proof. by vm_compute. Qed.

(** ** The screen edge *)



(** ** At least one line *)

Lemma Forall_tail_ok (stk : list UndoSnapshot) :
  Forall snapshot_ok stk -> Forall snapshot_ok (tail stk).
Proof. destruct stk; simpl; [done|]. intros H. by inversion H. Qed.

Lemma Forall_removelast_ok (stk : list UndoSnapshot) :
  Forall snapshot_ok stk -> Forall snapshot_ok (removelast stk).
Proof.
  destruct (last stk) as [s|] eqn:Hlast.
  - rewrite <- (snoc_removelast _ _ Hlast) at 1. rewrite Forall_app. tauto.
  - apply last_None in Hlast as ->. done.
Qed.

Lemma make_room_ok (stk : list UndoSnapshot) :
  Forall snapshot_ok stk -> Forall snapshot_ok (make_room stk).
Proof. unfold make_room, drop_oldest. case_match; auto using Forall_tail_ok. Qed.

Lemma snapshot_is_ok (st : editor) : lines st <> [] -> snapshot_ok (snapshot st).
Proof. intros H ls [= <-]. done. Qed.

Lemma dead_slot_ok (stk : list UndoSnapshot) : snapshot_ok (dead_slot stk).
Proof. unfold dead_slot. by destruct (last stk); intros ls [=]. Qed.

Lemma save_current_ok (ok : bool) (st : editor) (stk : list UndoSnapshot) :
  lines st <> [] -> Forall snapshot_ok stk ->
  Forall snapshot_ok (save_current ok st stk).
Proof.
  intros Hl Hs. unfold save_current, drop_oldest.
  destruct (_ <? _), ok; rewrite ?Forall_app, ?Forall_singleton;
    auto using Forall_tail_ok, snapshot_is_ok, dead_slot_ok.
Qed.

Lemma push_undo_inv (st : editor) : doc_inv st -> doc_inv (push_undo st).
Proof.
  intros (Hl & Hu & Hr). unfold doc_inv, push_undo, malloc, undo_count.
  pose proof (make_room_ok _ Hu) as Hm. unfold make_room in Hm.
  destruct (_ =? _), (hd true _); cbn;
    rewrite ?Forall_app, ?Forall_singleton;
    auto using snapshot_is_ok.
Qed.

Lemma newline_inv (st : editor) : doc_inv st -> doc_inv (newline st).
Proof.
  intros H. apply push_undo_inv in H as (Hl & Hu & Hr).
  unfold newline, malloc, doc_inv. cbn.
  repeat case_match; cbn; repeat split; try done.
  by destruct (take _ _).
Qed.

Lemma insert_char_inv (c : Z) (st : editor) :
  doc_inv st -> doc_inv (insert_char c st).
Proof.
  intros H. apply push_undo_inv in H. unfold insert_char.
  destruct (_ >=? _); [by apply newline_inv|].
  destruct H as (Hl & Hu & Hr). unfold malloc, doc_inv. cbn.
  repeat case_match; cbn; repeat split; try done.
  intros E. apply (f_equal length) in E. rewrite length_insert in E.
  by destruct (lines (push_undo st)).
Qed.

(** The merge removes a row only when the cursor is below row 0, so a row
    above it remains. *)
Lemma backspace_inv (st : editor) : doc_inv st -> doc_inv (backspace st).
Proof.
  intros H. apply push_undo_inv in H as (Hl & Hu & Hr).
  unfold backspace, doc_inv. cbn.
  repeat case_match; cbn; repeat split; try done.
  - intros E. apply (f_equal length) in E. rewrite length_insert in E.
    by destruct (lines (push_undo st)).
  - destruct (Z.to_nat (cur_y (push_undo st))) as [|y] eqn:Hy; [lia|].
    destruct (lines (push_undo st)) as [|a t]; [done|].
    simpl. by destruct y.
Qed.

Lemma do_undo_inv (st st' : editor) :
  doc_inv st -> do_undo st = Some st' -> doc_inv st'.
Proof.
  intros (Hl & Hu & Hr). unfold do_undo, malloc, restore.
  destruct (last (undo_stack st)) as [s|] eqn:Hlast; cbn.
  - destruct (snap_lines s) as [ls|] eqn:Hs; [|done].
    intros [= <-]. unfold doc_inv. cbn. repeat split.
    + apply (proj1 (Forall_forall _ _) Hu s); [by apply last_elem_of | done].
    + by apply Forall_removelast_ok.
    + by apply save_current_ok.
  - intros [= <-]. done.
Qed.

Lemma do_redo_inv (st st' : editor) :
  doc_inv st -> do_redo st = Some st' -> doc_inv st'.
Proof.
  intros (Hl & Hu & Hr). unfold do_redo, malloc, restore.
  destruct (last (redo_stack st)) as [s|] eqn:Hlast; cbn.
  - destruct (snap_lines s) as [ls|] eqn:Hs; [|done].
    intros [= <-]. unfold doc_inv. cbn. repeat split.
    + apply (proj1 (Forall_forall _ _) Hr s); [by apply last_elem_of | done].
    + by apply save_current_ok.
    + by apply Forall_removelast_ok.
  - intros [= <-]. done.
Qed.

(** [load_file] leaves one empty line when there is no file or the file
    has no line. *)
Lemma startup_inv file cols plan : doc_inv (startup file cols plan).
Proof.
  unfold startup, load_file, doc_inv.
  destruct file as [records|]; [|done].
  by destruct (map _ _).
Qed.

Lemma reachable_inv (st : editor) : reachable st -> doc_inv st.
Proof.
  induction 1; eauto using startup_inv, insert_char_inv, backspace_inv,
    newline_inv, do_undo_inv, do_redo_inv.
Qed.

(** C6.  The document always has at least one line: the state that
    [load_file] sets up has, and [insert_char], [backspace] (its line merge
    included), [newline], [do_undo] and [do_redo] keep it so, whatever the
    screen width and whichever allocations fail.  [reachable] is the
    closure of the loaded state under these operations. *)
Theorem always_at_least_one_line (st : editor) :
  reachable st -> 1 <= num_lines st.
Proof.
  intros H. apply reachable_inv in H as (Hl & _).
  unfold num_lines. destruct (lines st); [done|]. simpl. lia.
Qed.

Lemma always_at_least_one_line_witness :
  1 <= num_lines (backspace (newline (startup None 80 []))).
Proof.
  apply (always_at_least_one_line (backspace (newline (startup None 80 [])))).
  apply reach_backspace, reach_newline, reach_startup.
Defined.

(** ** A capture that fails *)

Lemma push_undo_live_eq (a b : editor) :
  same_live a b -> scr_cols a = scr_cols b ->
  tail (allocs a) = tail (allocs b) ->
  live_eq (push_undo a) (push_undo b).
Proof.
  intros (Hl & Hx & Hy & Ht) Hc Ha.
  unfold live_eq, same_live, push_undo, malloc.
  destruct (undo_count a =? _), (undo_count b =? _),
    (hd true (allocs _)), (hd true (allocs _)); cbn; done.
Qed.

Lemma live_eq_line_at (a b : editor) (y : Z) :
  live_eq a b -> line_at a y = line_at b y.
Proof. intros ((Hl & _) & _). unfold line_at. by rewrite Hl. Qed.

Lemma newline_live_eq (a b : editor) :
  live_eq (push_undo a) (push_undo b) -> live_eq (newline a) (newline b).
Proof.
  intros H. pose proof (live_eq_line_at _ _ (cur_y (push_undo a)) H) as Hln.
  destruct H as ((Hl & Hx & Hy & Ht) & Hc & Ha).
  unfold newline, malloc, num_lines. cbn. rewrite Hln, Hl, Hx, Hy, Ha.
  unfold live_eq, same_live.
  repeat case_match; cbn; rewrite ?Hl, ?Hx, ?Hy, ?Ht, ?Hc, ?Ha; done.
Qed.

Lemma backspace_live_eq (a b : editor) :
  live_eq (push_undo a) (push_undo b) -> live_eq (backspace a) (backspace b).
Proof.
  intros H. pose proof (live_eq_line_at _ _ (cur_y (push_undo a)) H) as Hln.
  pose proof (live_eq_line_at _ _ (cur_y (push_undo a) - 1) H) as Hprev.
  destruct H as ((Hl & Hx & Hy & Ht) & Hc & Ha).
  unfold backspace. cbn. rewrite <- !Hy, <- !Hx, <- !Hln, <- !Hprev, <- !Hl.
  unfold live_eq, same_live.
  repeat case_match; cbn; rewrite ?Hl, ?Hx, ?Hy, ?Ht, ?Hc, ?Ha; done.
Qed.

Lemma insert_char_live_eq (c : Z) (a b : editor) :
  live_eq (push_undo a) (push_undo b) ->
  live_eq (insert_char c a) (insert_char c b).
Proof.
  intros H. pose proof (live_eq_line_at _ _ (cur_y (push_undo a)) H) as Hln.
  unfold insert_char.
  destruct H as ((Hl & Hx & Hy & Ht) & Hc & Ha).
  rewrite <- Hx, <- Hc.
  destruct (_ >=? _).
  - apply newline_live_eq, push_undo_live_eq; [done|done|by rewrite Ha].
  - unfold malloc. cbn. rewrite <- !Hy, <- !Hln, <- !Hl, <- !Ha.
    unfold live_eq, same_live.
    repeat case_match; cbn; rewrite ?Hl, ?Hx, ?Hy, ?Ht, ?Hc, ?Ha; done.
Qed.

(** C8, as the code has it.  When the allocation in [push_undo] fails the
    capture is given up: no snapshot is pushed and the redo stack is kept.
    [push_undo] returns nothing, and the edit that called it goes on: what
    it does to the document, the cursor and the viewport is what it does
    when the capture succeeds. *)
Theorem failed_capture_does_not_stop_edit (e : edit) (st : editor)
    (rest : list bool) :
  allocs st = false :: rest ->
  (undo_stack (push_undo st) = make_room (undo_stack st) /\
   redo_stack (push_undo st) = redo_stack st /\
   same_live (push_undo st) st) /\
  same_live (apply_edit e st) (apply_edit e (set_allocs (true :: rest) st)).
Proof.
  intros Ha. split.
  - destruct (push_undo_fails st rest Ha) as (Hu & Hr & _).
    auto using push_undo_same_live.
  - assert (H : live_eq (push_undo st) (push_undo (set_allocs (true :: rest) st))).
    { apply push_undo_live_eq; cbn; [done|done|by rewrite Ha]. }
    destruct e as [c| |]; simpl.
    + apply (insert_char_live_eq c _ _ H).
    + apply (backspace_live_eq _ _ H).
    + apply (newline_live_eq _ _ H).
Qed.

Lemma failed_capture_does_not_stop_edit_witness :
  (undo_stack (push_undo failed_capture_case)
     = make_room (undo_stack failed_capture_case) /\
   redo_stack (push_undo failed_capture_case) = redo_stack failed_capture_case /\
   same_live (push_undo failed_capture_case) failed_capture_case) /\
  same_live (apply_edit (InsertChar 98) failed_capture_case)
    (apply_edit (InsertChar 98) (set_allocs [true] failed_capture_case)).
Proof.
  apply (failed_capture_does_not_stop_edit (InsertChar 98) failed_capture_case []).
  reflexivity.
Defined.

(** C8 as stated fails: with the allocation of the capture failing,
    [insert_char] still inserts, and no snapshot has been taken. *)
Lemma edit_proceeds_after_failed_capture :
  hd true (allocs failed_capture_case) = false /\
  undo_stack (insert_char 98 failed_capture_case) = [] /\
  lines failed_capture_case = [str "a"] /\
  lines (insert_char 98 failed_capture_case) = [str "ba"].
Proof. vm_compute. repeat split; congruence. Qed.

(** ** Search *)

Lemma strstr_sound (hay needle : list ascii) (k : nat) :
  strstr hay needle = Some k -> starts_with needle (drop k hay) = true.
Proof.
  revert k. induction hay as [|b hay IH]; intros k; simpl.
  - destruct (starts_with needle []) eqn:E; [|done]. intros [= <-]. done.
  - destruct (starts_with needle (b :: hay)) eqn:E.
    + intros [= <-]. done.
    + destruct (strstr hay needle) as [j|] eqn:Hj; simpl; [|done].
      intros [= <-]. simpl. by apply IH.
Qed.

Lemma strstr_first (hay needle : list ascii) (k j : nat) :
  strstr hay needle = Some k -> (j < k)%nat ->
  starts_with needle (drop j hay) = false.
Proof.
  revert k j. induction hay as [|b hay IH]; intros k j; simpl.
  - destruct (starts_with needle []) eqn:E; [|done]. intros [= <-]. lia.
  - destruct (starts_with needle (b :: hay)) eqn:E.
    + intros [= <-]. lia.
    + destruct (strstr hay needle) as [i|] eqn:Hi; simpl; [|done].
      intros [= <-] Hlt. destruct j as [|j]; [done|].
      simpl. apply (IH i); [done|lia].
Qed.

Lemma scan_rows_bounds (rows : list line) (y : Z) (q : line) (y' x' : Z) :
  scan_rows rows y q = Some (y', x') ->
  y <= y' < y + Z.of_nat (length rows) /\ 0 <= x'.
Proof.
  revert y. induction rows as [|ln rows IH]; intros y; simpl; [done|].
  destruct (strstr ln q) as [x|].
  - intros [= <- <-]. lia.
  - intros H. apply IH in H. lia.
Qed.

(** The wrap-around never comes back to the cursor's row: a search that
    ends on that row has moved the cursor to the right, or has not moved it
    at all. *)
Lemma search_forward_never_left_of_cursor (st st' : editor) :
  cursor_ok st ->
  search_forward st = Some st' ->
  cur_y st' = cur_y st ->
  st' = beep st \/ cur_x st < cur_x st'.
Proof.
  intros [Hy Hx]. unfold search_forward, wrap_around.
  destruct (search_query st) as [|q0 q]; [intros [= <-]; by left|].
  destruct (Z.ltb_spec (cur_y st) (num_lines st)); [|lia].
  destruct (_ >? _); [done|].
  destruct (strstr _ _) as [k|].
  { intros [= <-]. simpl. right. lia. }
  destruct (scan_rows (drop _ _) _ _) as [[y' x']|] eqn:Hafter.
  { intros [= <-]. simpl. apply scan_rows_bounds in Hafter. lia. }
  destruct (scan_rows (take _ _) _ _) as [[y' x']|] eqn:Hbefore.
  - intros [= <-]. simpl. apply scan_rows_bounds in Hbefore.
    rewrite length_take in Hbefore. lia.
  - intros [= <-]. by left.
Qed.

Lemma scan_rows_sound (rows : list line) (y : Z) (q : line) (y' x' : Z) :
  scan_rows rows y q = Some (y', x') ->
  exists (ln : line) (k : nat),
    rows !! Z.to_nat (y' - y) = Some ln /\ strstr ln q = Some k /\
    x' = Z.of_nat k /\ y <= y'.
Proof.
  revert y. induction rows as [|ln rows IH]; intros y; simpl; [done|].
  destruct (strstr ln q) as [x|] eqn:Hx.
  - intros [= <- <-]. exists ln, x. rewrite Z.sub_diag. repeat split; [done|lia].
  - intros H. destruct (IH _ H) as (ln' & k & Hrow & Hk & -> & Hle).
    exists ln', k. repeat split; [|done|lia].
    replace (Z.to_nat (y' - y)) with (S (Z.to_nat (y' - (y + 1)))) by lia.
    done.
Qed.

(** A search that moves the cursor puts it on an occurrence of the query,
    and changes nothing else. *)
Lemma search_forward_finds_match (st st' : editor) :
  cursor_ok st ->
  search_forward st = Some st' ->
  st' = beep st \/
  (st' = set_cursor (cur_x st') (cur_y st') st /\
   starts_with (search_query st)
     (drop (Z.to_nat (cur_x st')) (line_at st (cur_y st'))) = true).
Proof.
  intros [Hy Hx]. unfold search_forward, wrap_around.
  destruct (search_query st) as [|q0 q] eqn:Hq; [intros [= <-]; by left|].
  destruct (Z.ltb_spec (cur_y st) (num_lines st)); [|lia].
  destruct (_ >? _); [done|].
  destruct (strstr _ _) as [k|] eqn:Hk.
  { intros [= <-]. right. split; [done|]. cbn.
    apply strstr_sound in Hk. rewrite drop_drop in Hk.
    by replace (Z.to_nat (cur_x st + 1 + Z.of_nat k))
      with (Z.to_nat (cur_x st + 1) + k)%nat by lia. }
  destruct (scan_rows (drop _ _) _ _) as [[y' x']|] eqn:Hafter.
  { intros [= <-]. right. split; [done|]. cbn.
    destruct (scan_rows_sound _ _ _ _ _ Hafter) as (ln & j & Hrow & Hj & -> & Hle).
    rewrite lookup_drop in Hrow. unfold line_at.
    replace (Z.to_nat y') with (S (Z.to_nat (cur_y st)) + Z.to_nat (y' - (cur_y st + 1)))%nat
      by lia.
    apply strstr_sound in Hj. rewrite Hrow, Nat2Z.id. exact Hj. }
  destruct (scan_rows (take _ _) _ _) as [[y' x']|] eqn:Hbefore.
  - intros [= <-]. right. split; [done|]. cbn.
    destruct (scan_rows_sound _ _ _ _ _ Hbefore) as (ln & j & Hrow & Hj & -> & Hle).
    apply lookup_take_Some in Hrow as [Hrow _]. unfold line_at.
    rewrite Z.sub_0_r in Hrow. apply strstr_sound in Hj.
    rewrite Hrow, Nat2Z.id. exact Hj.
  - intros [= <-]. by left.
Qed.

(** C5 at the input where the code departs from it.  The query ["ab"]
    occurs at column 0 of row 1, the cursor's row, left of the cursor
    (column 3).  The first loop scans row 1 from column 4 on; the second
    loop scans row 0 only ([y < start_y]); so [search_forward] ends in
    [beep()] with the cursor where it was. *)
Theorem search_forward_skips_start_row_prefix :
  cursor_ok prefix_case /\
  strstr (line_at prefix_case 1) (search_query prefix_case) = Some 0%nat /\
  search_forward prefix_case = Some (beep prefix_case).
Proof. unfold cursor_ok. vm_compute. repeat split; congruence. Qed.

(** ** Sound states *)

Ltac zbool :=
  repeat match goal with
  | H : (_ >? _) = true |- _ => apply Z.gtb_lt in H
  | H : (_ >? _) = false |- _ => rewrite Z.gtb_ltb in H; apply Z.ltb_ge in H
  | H : (_ <? _) = true |- _ => apply Z.ltb_lt in H
  | H : (_ <? _) = false |- _ => apply Z.ltb_ge in H
  | H : (_ >=? _) = true |- _ => rewrite Z.geb_leb in H; apply Z.leb_le in H
  | H : (_ >=? _) = false |- _ => rewrite Z.geb_leb in H; apply Z.leb_gt in H
  | H : (_ <=? _) = true |- _ => apply Z.leb_le in H
  | H : (_ <=? _) = false |- _ => apply Z.leb_gt in H
  | H : (_ =? _) = true |- _ => apply Z.eqb_eq in H
  | H : (_ =? _) = false |- _ => apply Z.eqb_neq in H
  end.

(** *** Strings *)

Lemma cstr_nul_free (buf : list ascii) : nul_free (cstr buf).
Proof.
  induction buf as [|b buf IH]; simpl; [constructor|].
  destruct (Ascii.eqb_spec b NUL); [constructor|]. by constructor.
Qed.

Lemma cstr_id (ln : line) : nul_free ln -> cstr ln = ln.
Proof.
  induction 1 as [|b ln Hb _ IH]; simpl; [done|].
  destruct (Ascii.eqb_spec b NUL); [done|]. by rewrite IH.
Qed.

Lemma char_of_int_printable (c : Z) : 32 <= c < 127 -> char_of_int c <> NUL.
Proof.
  intros Hc E. unfold char_of_int in E.
  apply (f_equal N_of_ascii) in E.
  rewrite N_ascii_embedding in E.
  - rewrite Z.mod_small in E by lia. simpl in E. lia.
  - rewrite Z.mod_small by lia. lia.
Qed.

Lemma nul_free_app (a b : line) : nul_free a -> nul_free b -> nul_free (a ++ b).
Proof. unfold nul_free. rewrite Forall_app. tauto. Qed.

Lemma nul_free_take (n : nat) (a : line) : nul_free a -> nul_free (take n a).
Proof. apply Forall_take. Qed.

Lemma nul_free_drop (n : nat) (a : line) : nul_free a -> nul_free (drop n a).
Proof. apply Forall_drop. Qed.

(** *** Documents *)

Lemma view_ok_row (ls : list line) (x y top : Z) :
  view_ok ls x y top ->
  exists ln, ls !! Z.to_nat y = Some ln /\ nul_free ln /\
             0 <= x <= strlen ln /\ (Z.to_nat y < length ls)%nat.
Proof.
  intros (Hn & Hf & Hy & Hx & Ht).
  assert (Hlt : (Z.to_nat y < length ls)%nat) by lia.
  destruct (lookup_lt_is_Some_2 _ _ Hlt) as [ln Hln].
  exists ln. rewrite Hln in Hx. simpl in Hx.
  repeat split; try done; try lia.
  by apply (Forall_lookup_1 _ _ _ _ Hf Hln).
Qed.

Lemma view_ok_move (ls : list line) (x y top x' y' top' : Z) :
  view_ok ls x y top ->
  0 <= y' < Z.of_nat (length ls) ->
  0 <= x' <= strlen (default [] (ls !! Z.to_nat y')) ->
  0 <= top' ->
  view_ok ls x' y' top'.
Proof. intros (Hn & Hf & _) Hy Hx Ht. repeat split; try done; lia. Qed.

Lemma view_ok_insert (ls : list line) (x y top : Z) (ln : line) (ch : ascii) :
  view_ok ls x y top -> ls !! Z.to_nat y = Some ln -> ch <> NUL ->
  view_ok (<[Z.to_nat y := cstr (take (Z.to_nat x) ln ++ ch :: drop (Z.to_nat x) ln)]> ls)
          (x + 1) y top.
Proof.
  intros Hv Hln Hch. destruct (view_ok_row _ _ _ _ Hv) as (ln' & Hln' & Hnf & Hx & Hlt).
  rewrite Hln in Hln'. injection Hln' as <-.
  destruct Hv as (Hn & Hf & Hy & _ & Ht).
  assert (Hnew : nul_free (take (Z.to_nat x) ln ++ ch :: drop (Z.to_nat x) ln)).
  { apply nul_free_app; [by apply nul_free_take|].
    constructor; [done|by apply nul_free_drop]. }
  rewrite (cstr_id _ Hnew).
  repeat split; rewrite ?length_insert; try lia.
  - by apply Forall_insert.
  - rewrite list_lookup_insert_eq by done. simpl. unfold strlen in *.
    rewrite length_app, length_take. simpl. rewrite length_drop. lia.
Qed.

Lemma view_ok_delete_char (ls : list line) (x y top : Z) (ln : line) :
  view_ok ls x y top -> ls !! Z.to_nat y = Some ln -> 0 < x ->
  view_ok (<[Z.to_nat y := take (Z.to_nat x - 1) ln ++ drop (Z.to_nat x) ln]> ls)
          (x - 1) y top.
Proof.
  intros Hv Hln Hpos. destruct (view_ok_row _ _ _ _ Hv) as (ln' & Hln' & Hnf & Hx & Hlt).
  rewrite Hln in Hln'. injection Hln' as <-.
  destruct Hv as (Hn & Hf & Hy & _ & Ht).
  repeat split; rewrite ?length_insert; try lia.
  - apply Forall_insert; [done|].
    apply nul_free_app; [by apply nul_free_take | by apply nul_free_drop].
  - rewrite list_lookup_insert_eq by done. simpl. unfold strlen in *.
    rewrite length_app, length_take, length_drop. lia.
Qed.

Lemma view_ok_split (ls : list line) (x y top : Z) :
  view_ok ls x y top -> Z.of_nat (length ls) + 1 < MAX_LINES ->
  view_ok (split_rows ls (Z.to_nat y) (Z.to_nat x)) 0 (y + 1) top.
Proof.
  intros Hv Hroom. destruct (view_ok_row _ _ _ _ Hv) as (ln & Hln & Hnf & Hx & Hlt).
  destruct Hv as (Hn & Hf & Hy & _ & Ht).
  repeat split; rewrite ?length_split_rows by done; try lia.
  - unfold split_rows. rewrite Hln. simpl.
    rewrite Forall_app, !Forall_cons.
    auto using Forall_take, Forall_drop, nul_free_take, nul_free_drop.
  - unfold strlen. lia.
Qed.

Lemma view_ok_merge (ls : list line) (x y top : Z) (prev cur : line) :
  view_ok ls x y top -> 0 < y ->
  ls !! Z.to_nat (y - 1) = Some prev -> ls !! Z.to_nat y = Some cur ->
  view_ok (delete (Z.to_nat y) (<[(Z.to_nat y - 1)%nat := prev ++ cur]> ls))
          (strlen prev) (y - 1) top.
Proof.
  intros Hv Hpos Hprev Hcur.
  destruct Hv as (Hn & Hf & Hy & _ & Ht).
  assert (Hlt : (Z.to_nat y < length ls)%nat) by lia.
  assert (Hlen : length (delete (Z.to_nat y) (<[(Z.to_nat y - 1)%nat := prev ++ cur]> ls))
                 = (length ls - 1)%nat).
  { rewrite length_delete, length_insert; [done|].
    apply lookup_lt_is_Some_2. by rewrite length_insert. }
  repeat split; rewrite ?Hlen; try lia.
  - apply Forall_delete, Forall_insert; [done|].
    apply nul_free_app.
    + by apply (Forall_lookup_1 _ _ _ _ Hf Hprev).
    + by apply (Forall_lookup_1 _ _ _ _ Hf Hcur).
  - unfold strlen. lia.
  - rewrite list_lookup_delete_lt by lia.
    replace (Z.to_nat (y - 1)) with (Z.to_nat y - 1)%nat by lia.
    rewrite list_lookup_insert_eq by lia. simpl. unfold strlen.
    rewrite length_app. lia.
Qed.

(** *** Moves *)

Ltac sound_moved :=
  match goal with
  | H : sound _ |- _ => destruct H as (? & ? & ? & ? & ?)
  end;
  cbn; repeat case_match; zbool;
  (split; [|done]);
  match goal with
  | H : view_ok _ _ _ _ |- _ => pose proof H as (? & ? & ? & ? & ?)
  end;
  unfold view_ok; cbn; unfold line_at, num_lines, strlen in *; cbn;
  repeat split; try done; try lia.

Lemma key_up_sound (st : editor) : sound st -> sound (key_up st).
Proof. intros H. unfold key_up, clamp_x. sound_moved. Qed.

Lemma key_down_sound (st : editor) : sound st -> sound (key_down st).
Proof. intros H. unfold key_down, clamp_x. sound_moved. Qed.

Lemma key_left_sound (st : editor) : sound st -> sound (key_left st).
Proof. intros H. unfold key_left. sound_moved. Qed.

Lemma key_right_sound (st : editor) : sound st -> sound (key_right st).
Proof. intros H. unfold key_right. sound_moved. Qed.

Lemma page_up_sound (rows : Z) (st : editor) : sound st -> sound (page_up rows st).
Proof. intros H. unfold page_up, page_height, clamp_x. sound_moved. Qed.

Lemma page_down_sound (rows : Z) (st : editor) :
  sound st -> sound (page_down rows st).
Proof. intros H. unfold page_down, page_height, clamp_x. sound_moved. Qed.

Lemma draw_screen_sound (rows : Z) (st : editor) :
  sound st -> sound (draw_screen rows st).
Proof. intros H. unfold draw_screen. sound_moved. Qed.

(** *** History *)

Lemma length_tail_le (stk : list UndoSnapshot) :
  (length (tail stk) <= length stk)%nat.
Proof. destruct stk; simpl; lia. Qed.

Lemma length_removelast_le (stk : list UndoSnapshot) :
  (length (removelast stk) <= length stk)%nat.
Proof.
  destruct (last stk) as [s|] eqn:Hlast.
  - rewrite <- (snoc_removelast _ _ Hlast) at 2. rewrite length_app. lia.
  - apply last_None in Hlast as ->. done.
Qed.

Lemma Forall_tail_sound (stk : list UndoSnapshot) :
  Forall snapshot_sound stk -> Forall snapshot_sound (tail stk).
Proof. destruct stk; simpl; [done|]. intros H. by inversion H. Qed.

Lemma Forall_removelast_sound (stk : list UndoSnapshot) :
  Forall snapshot_sound stk -> Forall snapshot_sound (removelast stk).
Proof.
  destruct (last stk) as [s|] eqn:Hlast.
  - rewrite <- (snoc_removelast _ _ Hlast) at 1. rewrite Forall_app. tauto.
  - apply last_None in Hlast as ->. done.
Qed.

Lemma snapshot_is_sound (st : editor) :
  view_ok (lines st) (cur_x st) (cur_y st) (top_line st) ->
  snapshot_sound (snapshot st).
Proof. intros H ls [= <-]. done. Qed.

Lemma dead_slot_sound (stk : list UndoSnapshot) : snapshot_sound (dead_slot stk).
Proof. unfold dead_slot. by destruct (last stk); intros ls [=]. Qed.

Lemma save_current_sound (ok : bool) (st : editor) (stk : list UndoSnapshot) :
  view_ok (lines st) (cur_x st) (cur_y st) (top_line st) ->
  Forall snapshot_sound stk ->
  Z.of_nat (length stk) <= UNDO_DEPTH ->
  Forall snapshot_sound (save_current ok st stk) /\
  Z.of_nat (length (save_current ok st stk)) <= UNDO_DEPTH.
Proof.
  intros Hv Hs Hlen. unfold save_current, drop_oldest.
  pose proof (length_tail_le stk) as Htl.
  destruct (Z.ltb_spec (Z.of_nat (length stk)) UNDO_DEPTH), ok;
    rewrite ?Forall_app, ?Forall_singleton, ?length_app; simpl;
    split_and!;
    auto using Forall_tail_sound, snapshot_is_sound, dead_slot_sound; try lia.
  all: destruct stk; simpl in *; unfold UNDO_DEPTH in *; lia.
Qed.

Lemma push_undo_sound (st : editor) : sound st -> sound (push_undo st).
Proof.
  intros (Hv & Hu & Hr & Hcu & Hcr).
  pose proof (length_tail_le (undo_stack st)) as Htl.
  unfold sound, push_undo, malloc, undo_count, redo_count, drop_oldest in *.
  destruct (Z.eqb_spec (Z.of_nat (length (undo_stack st))) UNDO_DEPTH),
    (hd true _); cbn;
    rewrite ?Forall_app, ?Forall_singleton, ?length_app; simpl;
    split_and!;
    auto using Forall_tail_sound, snapshot_is_sound; try (unfold UNDO_DEPTH in *; lia).
  all: destruct (undo_stack st); simpl in *; unfold UNDO_DEPTH in *; lia.
Qed.

Lemma do_undo_sound (st st' : editor) :
  sound st -> do_undo st = Some st' -> sound st'.
Proof.
  intros (Hv & Hu & Hr & Hcu & Hcr). unfold do_undo, malloc, restore.
  destruct (last (undo_stack st)) as [s|] eqn:Hlast; cbn.
  - destruct (snap_lines s) as [ls|] eqn:Hs; [|done].
    intros [= <-]. unfold sound, undo_count, redo_count in *. cbn.
    destruct (save_current_sound (hd true (allocs st)) st (redo_stack st))
      as [Hf Hl]; try done.
    pose proof (length_removelast_le (undo_stack st)).
    split_and!; try done; try lia.
    + apply (proj1 (Forall_forall _ _) Hu s); [by apply last_elem_of | done].
    + by apply Forall_removelast_sound.
  - intros [= <-]. done.
Qed.

Lemma do_redo_sound (st st' : editor) :
  sound st -> do_redo st = Some st' -> sound st'.
Proof.
  intros (Hv & Hu & Hr & Hcu & Hcr). unfold do_redo, malloc, restore.
  destruct (last (redo_stack st)) as [s|] eqn:Hlast; cbn.
  - destruct (snap_lines s) as [ls|] eqn:Hs; [|done].
    intros [= <-]. unfold sound, undo_count, redo_count in *. cbn.
    destruct (save_current_sound (hd true (allocs st)) st (undo_stack st))
      as [Hf Hl]; try done.
    pose proof (length_removelast_le (redo_stack st)).
    split_and!; try done; try lia.
    + apply (proj1 (Forall_forall _ _) Hr s); [by apply last_elem_of | done].
    + by apply Forall_removelast_sound.
  - intros [= <-]. done.
Qed.

(** *** Edits *)

Lemma sound_row (st : editor) :
  sound st -> lines st !! Z.to_nat (cur_y st) = Some (line_at st (cur_y st)).
Proof.
  intros (Hv & _). destruct (view_ok_row _ _ _ _ Hv) as (ln & Hln & _).
  unfold line_at. by rewrite Hln.
Qed.

Lemma newline_sound (st : editor) : sound st -> sound (newline st).
Proof.
  intros H. apply push_undo_sound in H.
  pose proof (sound_row _ H) as Hrow.
  destruct H as (Hv & Hu & Hr & Hcu & Hcr).
  unfold newline, malloc. cbn.
  repeat case_match; zbool; try (by split_and!).
  unfold sound, undo_count, redo_count in *. cbn. split_and!; try done.
  rewrite (split_rows_shape _ _ _ _ Hrow).
  apply view_ok_split; [done|]. unfold num_lines in *. lia.
Qed.

Lemma backspace_sound (st : editor) : sound st -> sound (backspace st).
Proof.
  intros H. apply push_undo_sound in H.
  pose proof (sound_row _ H) as Hrow.
  destruct H as (Hv & Hu & Hr & Hcu & Hcr).
  unfold backspace. cbn.
  repeat case_match; zbool; try (by split_and!).
  - unfold sound, undo_count, redo_count in *. cbn. split_and!; try done.
    replace (Z.to_nat (cur_x (push_undo st)) - 1)%nat
      with (Z.to_nat (cur_x (push_undo st)) - 1)%nat by done.
    by apply view_ok_delete_char.
  - unfold sound, undo_count, redo_count in *. cbn. split_and!; try done.
    apply view_ok_merge with (x := cur_x (push_undo st)); try done.
    destruct Hv as (_ & _ & Hy & _).
    assert (Hlt : (Z.to_nat (cur_y (push_undo st) - 1) < length (lines (push_undo st)))%nat)
      by lia.
    unfold line_at. by destruct (lookup_lt_is_Some_2 _ _ Hlt) as [ln ->].
Qed.

Lemma insert_char_sound (c : Z) (st : editor) :
  char_of_int c <> NUL -> sound st -> sound (insert_char c st).
Proof.
  intros Hc H. apply push_undo_sound in H. unfold insert_char.
  destruct (_ >=? _); [by apply newline_sound|].
  pose proof (sound_row _ H) as Hrow.
  destruct H as (Hv & Hu & Hr & Hcu & Hcr).
  unfold malloc. cbn.
  repeat case_match; zbool; try (by split_and!).
  unfold sound, undo_count, redo_count in *. cbn. split_and!; try done.
  by apply view_ok_insert.
Qed.

(** *** Search *)

Lemma starts_with_nonempty (q0 : ascii) (q hay : list ascii) :
  starts_with (q0 :: q) hay = true -> hay <> [].
Proof. by destruct hay. Qed.

Lemma search_forward_sound (st st' : editor) :
  sound st -> search_forward st = Some st' -> sound st'.
Proof.
  intros Hs Hsearch.
  assert (Hc : cursor_ok st).
  { destruct Hs as ((_ & _ & Hy & Hx & _) & _). by split. }
  destruct (search_forward_finds_match _ _ Hc Hsearch) as [->|[Hst Hm]].
  { destruct Hs as (Hv & Hu & Hr & Hcu & Hcr). by split_and!. }
  assert (Hq : exists q0 q, search_query st = q0 :: q).
  { unfold search_forward in Hsearch. destruct (search_query st) as [|q0 q] eqn:E.
    - injection Hsearch as <-.
      exfalso. apply (f_equal beeps) in Hst. cbn in Hst. lia.
    - eauto. }
  destruct Hq as (q0 & q & Hq). rewrite Hq in Hm.
  apply starts_with_nonempty in Hm.
  assert (Hbounds : 0 <= cur_y st' /\ 0 <= cur_x st').
  { clear Hm Hst. unfold search_forward, wrap_around in Hsearch. rewrite Hq in Hsearch.
    destruct Hc as [Hy Hx].
    destruct (_ <? _); [|].
    - destruct (_ >? _); [done|].
      destruct (strstr _ _) as [k|].
      { injection Hsearch as <-. cbn. lia. }
      destruct (scan_rows (drop _ _) _ _) as [[y' x']|] eqn:Hafter.
      { injection Hsearch as <-. cbn. apply scan_rows_bounds in Hafter. lia. }
      destruct (scan_rows (take _ _) _ _) as [[y' x']|] eqn:Hbefore.
      + injection Hsearch as <-. cbn. apply scan_rows_bounds in Hbefore. lia.
      + injection Hsearch as <-. cbn. lia.
    - destruct (scan_rows (take _ _) _ _) as [[y' x']|] eqn:Hbefore.
      + injection Hsearch as <-. cbn. apply scan_rows_bounds in Hbefore. lia.
      + injection Hsearch as <-. cbn. lia. }
  destruct Hs as (Hv & Hu & Hr & Hcu & Hcr).
  rewrite Hst. unfold sound, undo_count, redo_count in *. cbn. split_and!; try done.
  destruct Hv as (Hn & Hf & _ & _ & Ht).
  unfold line_at in Hm.
  destruct (lines st !! Z.to_nat (cur_y st')) as [ln|] eqn:Hln; cbn in Hm.
  - pose proof (lookup_lt_Some _ _ _ Hln) as Hlt.
    split_and!; try done; try lia.
    rewrite Hln. cbn. unfold strlen.
    destruct (Nat.le_gt_cases (length ln) (Z.to_nat (cur_x st'))) as [Hge|Hlt'].
    + by rewrite drop_ge in Hm.
    + lia.
  - by destruct (Z.to_nat (cur_x st')).
Qed.

(** *** Loading *)

Lemma startup_sound file cols plan : sound (startup file cols plan).
Proof.
  unfold startup, load_file.
  assert (Hempty : sound (set_lines [[]] (mkEditor [] 0 0 0 [] [] [] cols plan 0))).
  { unfold sound, view_ok, undo_count, redo_count, MAX_LINES, UNDO_DEPTH. cbn.
    split_and!; try done; try lia. by repeat constructor. }
  destruct file as [records|]; [|done].
  destruct (map _ _) as [|l ls] eqn:E; [done|].
  assert (Hlen : (length (l :: ls) <= Z.to_nat MAX_LINES)%nat).
  { rewrite <- E, length_map, length_take. lia. }
  assert (Hnf : Forall nul_free (l :: ls)).
  { rewrite <- E. apply Forall_map, Forall_forall. intros buf _.
    apply cstr_nul_free. }
  unfold sound, view_ok, undo_count, redo_count, UNDO_DEPTH, strlen.
  cbn [lines cur_x cur_y top_line undo_stack redo_stack set_lines length].
  split_and!; try done; try lia.
  cbn [length] in Hlen. unfold MAX_LINES in *. lia.
Qed.

(** *** The query survives every command *)

Lemma newline_query (st : editor) : search_query (newline st) = search_query st.
Proof.
  destruct (push_undo_env st) as (Hq & _).
  unfold newline, malloc. cbn. by repeat case_match.
Qed.

Lemma backspace_query (st : editor) : search_query (backspace st) = search_query st.
Proof.
  destruct (push_undo_env st) as (Hq & _).
  unfold backspace. cbn. by repeat case_match.
Qed.

Lemma insert_char_query (c : Z) (st : editor) :
  search_query (insert_char c st) = search_query st.
Proof.
  destruct (push_undo_env st) as (Hq & _).
  unfold insert_char, malloc.
  destruct (_ >=? _); [by rewrite newline_query|].
  cbn. by repeat case_match.
Qed.

Lemma do_undo_query (st st' : editor) :
  do_undo st = Some st' -> search_query st' = search_query st.
Proof.
  unfold do_undo, malloc, restore. cbn.
  repeat case_match; try done; by intros [= <-].
Qed.

Lemma do_redo_query (st st' : editor) :
  do_redo st = Some st' -> search_query st' = search_query st.
Proof.
  unfold do_redo, malloc, restore. cbn.
  repeat case_match; try done; by intros [= <-].
Qed.

Lemma search_forward_query (st st' : editor) :
  search_forward st = Some st' -> search_query st' = search_query st.
Proof.
  unfold search_forward, wrap_around.
  repeat case_match; try done; by intros [= <-].
Qed.

Lemma moves_query (rows : Z) (st : editor) :
  search_query (key_up st) = search_query st /\
  search_query (key_down st) = search_query st /\
  search_query (key_left st) = search_query st /\
  search_query (key_right st) = search_query st /\
  search_query (page_up rows st) = search_query st /\
  search_query (page_down rows st) = search_query st /\
  search_query (draw_screen rows st) = search_query st.
Proof.
  unfold key_up, key_down, key_left, key_right, page_up, page_down,
    draw_screen, clamp_x.
  split_and!; cbn; by repeat case_match.
Qed.

(** *** One key *)

Lemma set_search_query_sound (q : line) (st : editor) :
  sound st -> sound (set_search_query q st).
Proof. intros (Hv & Hu & Hr & Hcu & Hcr). by split_and!. Qed.

Lemma do_save_ed (fopen_ok : bool) (s : session) :
  ed (do_save fopen_ok s) = ed s /\ md (do_save fopen_ok s) = md s /\
  filename (do_save fopen_ok s) = filename s /\
  scr_rows (do_save fopen_ok s) = scr_rows s.
Proof. unfold do_save. by destruct (snd _). Qed.

Lemma redraw_opt_sound (s s' : session) (o : option editor) :
  (forall st, o = Some st -> sound st) ->
  redraw s <$> o = Some s' -> sound (ed s').
Proof.
  intros H. destruct o as [st|]; [|done]. intros [= <-]. cbn.
  by apply draw_screen_sound, H.
Qed.

Lemma printable_test (ch : Z) :
  (32 <=? ch) && (ch <? 127) = true -> 32 <= ch < 127.
Proof. intros H. apply andb_prop in H as [? ?]. zbool. lia. Qed.

Lemma key_step_sound (k : curses_keys) (fopen_ok : bool) (ch : Z)
    (s s' : session) :
  sound (ed s) -> key_step k fopen_ok ch s = Some s' -> sound (ed s').
Proof.
  intros Hs. unfold key_step, main_key, search_key, save_key.
  destruct (md s) as [|buf|buf| |].
  - repeat case_match; intros Hstep;
      try (eapply redraw_opt_sound; [|exact Hstep]; intros st1 E;
           eauto using do_undo_sound, do_redo_sound, search_forward_sound);
      simplify_eq/=;
      rewrite ?(proj1 (do_save_ed _ _));
      auto using draw_screen_sound, key_up_sound, key_down_sound,
        key_left_sound, key_right_sound, page_up_sound, page_down_sound,
        backspace_sound, newline_sound, insert_char_sound,
        char_of_int_printable, printable_test.
  - repeat case_match; intros Hstep;
      try (eapply redraw_opt_sound; [|exact Hstep]; intros st1 E;
           eauto using search_forward_sound, set_search_query_sound);
      simplify_eq/=; auto using draw_screen_sound.
  - repeat case_match; intros Hstep; simplify_eq/=;
      rewrite ?(proj1 (do_save_ed _ _)); cbn;
      auto using draw_screen_sound.
  - intros [= <-]. cbn. by apply draw_screen_sound.
  - by intros [= <-].
Qed.

Lemma prompt_type_fits (cap ch : Z) (buf : line) :
  strlen buf <= cap -> strlen (prompt_type cap ch buf) <= cap.
Proof.
  intros H. unfold prompt_type.
  destruct (_ && _) eqn:E; [|done].
  apply andb_prop in E as [_ E]. zbool. unfold strlen in *.
  rewrite length_app. simpl. lia.
Qed.

Lemma prompt_erase_fits (cap : Z) (buf : line) :
  strlen buf <= cap -> strlen (prompt_erase buf) <= cap.
Proof.
  intros H. unfold prompt_erase, strlen in *.
  destruct (last buf) as [b|] eqn:Hlast.
  - assert (Hb : removelast buf ++ [b] = buf).
    { clear H. induction buf as [|a [|a' t] IH]; [done| |].
      - by injection Hlast as ->.
      - change (a :: (removelast (a' :: t) ++ [b]) = a :: a' :: t).
        f_equal. by apply IH. }
    rewrite <- Hb in H. rewrite length_app in H. simpl in H. lia.
  - apply last_None in Hlast as ->. done.
Qed.

Lemma strlen_take (n : nat) (buf : line) : strlen (take n buf) <= Z.of_nat n.
Proof. unfold strlen. rewrite length_take. lia. Qed.

Lemma draw_screen_query (rows : Z) (st : editor) :
  search_query (draw_screen rows st) = search_query st.
Proof. apply (moves_query rows st). Qed.

Lemma redraw_opt_query (s s' : session) (o : option editor) (q : line) :
  (forall st, o = Some st -> search_query st = q) ->
  redraw s <$> o = Some s' ->
  search_query (ed s') = q /\ filename s' = filename s /\ md s' = Editing.
Proof.
  intros H. destruct o as [st|]; [|done]. intros [= <-]. cbn.
  rewrite draw_screen_query. auto.
Qed.

Lemma key_step_fits (k : curses_keys) (fopen_ok : bool) (ch : Z)
    (s s' : session) :
  buffers_fit s -> key_step k fopen_ok ch s = Some s' -> buffers_fit s'.
Proof.
  intros (Hq & Hf & Hm). unfold key_step, main_key, search_key, save_key.
  pose proof (moves_query (scr_rows s) (ed s))
    as (Hup & Hdown & Hleft & Hright & Hpu & Hpd & Hdraw).
  destruct (md s) as [|buf|buf| |] eqn:Hmd.
  - repeat case_match; intros Hstep;
      try (eapply redraw_opt_query in Hstep as (Hq' & Hf' & Hm');
           [unfold buffers_fit; by rewrite Hq', Hf', Hm'|]; intros st1 E;
           eauto using do_undo_query, do_redo_query, search_forward_query);
      simplify_eq/=; unfold buffers_fit; cbn;
      rewrite ?draw_screen_query, ?(proj1 (do_save_ed _ _)),
        ?(proj1 (proj2 (proj2 (do_save_ed _ _)))),
        ?Hup, ?Hdown, ?Hleft, ?Hright, ?Hpu, ?Hpd,
        ?backspace_query, ?newline_query, ?insert_char_query;
      try done.
    all: split_and!; try done;
      try match goal with H : filename _ = _ |- _ => rewrite H end;
      try done; unfold strlen; simpl; lia.
  - repeat case_match; intros Hstep.
    + simplify_eq/=. unfold buffers_fit. cbn. by rewrite draw_screen_query.
    + eapply redraw_opt_query in Hstep as (Hq' & Hf' & Hm').
      * unfold buffers_fit. rewrite Hq', Hf', Hm'. split_and!; [|done|done].
        apply (strlen_take (Z.to_nat (MAX_SEARCH - 1))).
      * intros st1 E. apply search_forward_query in E. exact E.
    + simplify_eq/=. unfold buffers_fit. cbn.
      split_and!; try done. by apply prompt_erase_fits.
    + simplify_eq/=. unfold buffers_fit. cbn.
      split_and!; try done. by apply prompt_type_fits.
  - repeat case_match; intros Hstep; simplify_eq/=; unfold buffers_fit; cbn;
      rewrite ?draw_screen_query, ?(proj1 (do_save_ed _ _)),
        ?(proj1 (proj2 (proj2 (do_save_ed _ _)))); cbn;
      split_and!; try done;
      auto using prompt_erase_fits, prompt_type_fits.
    unfold strlen. cbn [length]. rewrite length_take. lia.
  - intros [= <-]. unfold buffers_fit. cbn. by rewrite draw_screen_query.
  - intros [= <-]. unfold buffers_fit. by rewrite Hmd.
Qed.

(** ** Runs of the key loop *)

Lemma boot_sound path file rows cols plan :
  sound (ed (boot path file rows cols plan)) /\
  buffers_fit (boot path file rows cols plan).
Proof.
  split.
  - cbn. apply draw_screen_sound, startup_sound.
  - unfold buffers_fit. cbn. rewrite draw_screen_query.
    split_and!; try done.
    + unfold startup, load_file. repeat case_match; cbn; unfold strlen, MAX_SEARCH; cbn; lia.
    + destruct path; [apply (strlen_take 1023)|unfold strlen; cbn; lia].
Qed.

Lemma runs_sound (k : curses_keys) (s : session) :
  runs k s -> sound (ed s) /\ buffers_fit s.
Proof.
  induction 1 as [path file rows cols plan|fopen_ok ch s s' _ [IHs IHb] Hstep
                  |rows cols s _ [IHs IHb]].
  - apply boot_sound.
  - eauto using key_step_sound, key_step_fits.
  - split; [|done]. destruct IHs as (Hv & Hu & Hr & Hcu & Hcr). by split_and!.
Qed.

(** X1.  Whatever keys are pressed, wherever the program is waiting,
    however the terminal is resized and whichever tested allocations fail,
    the cursor stays in the document (a run ends at a step that is not
    defined: a search reading past the end of the cursor's line, a
    snapshot without lines restored):
    [cur_y] is the index of a line, [cur_x] is a column of that line or
    its end, and [top_line] is not negative.  So [lines[cur_y]], the
    bytes copied around [cur_x] and the rows painted from [top_line] are
    always inside their arrays. *)
Theorem cursor_stays_in_document (k : curses_keys) (s : session) :
  runs k s -> cursor_ok (ed s) /\ 0 <= top_line (ed s).
Proof.
  intros H. apply runs_sound in H as [((_ & _ & Hy & Hx & Ht) & _) _].
  by split_and!.
Qed.

Lemma cursor_stays_in_document_witness :
  cursor_ok (ed sample_after_enter) /\ 0 <= top_line (ed sample_after_enter).
Proof.
  apply (cursor_stays_in_document ncurses_keys sample_after_enter).
  apply (runs_key ncurses_keys true 10 sample_session);
    [apply runs_boot | reflexivity].
Defined.

(** X2.  In every run the counts stay within the arrays: between 1 and
    [MAX_LINES] lines, at most [UNDO_DEPTH] snapshots on the undo stack and
    on the redo stack. *)
Theorem arrays_never_overflow (k : curses_keys) (s : session) :
  runs k s ->
  1 <= num_lines (ed s) <= MAX_LINES /\
  undo_count (ed s) <= UNDO_DEPTH /\
  redo_count (ed s) <= UNDO_DEPTH.
Proof.
  intros H. apply runs_sound in H as [((Hn & _) & _ & _ & Hu & Hr) _].
  unfold num_lines. split_and!; try done; lia.
Qed.

Lemma arrays_never_overflow_witness :
  1 <= num_lines (ed sample_after_enter) <= MAX_LINES /\
  undo_count (ed sample_after_enter) <= UNDO_DEPTH /\
  redo_count (ed sample_after_enter) <= UNDO_DEPTH.
Proof.
  apply (arrays_never_overflow ncurses_keys sample_after_enter).
  apply (runs_key ncurses_keys true 10 sample_session);
    [apply runs_boot | reflexivity].
Defined.

(** X3.  In every run the prompt buffers and the strings copied from them
    fit their arrays with the terminator: the search query and the text
    typed at the search prompt are shorter than [MAX_SEARCH], the file name
    and the text typed at the save prompt shorter than 1024. *)
Theorem prompt_buffers_fit (k : curses_keys) (s : session) :
  runs k s ->
  strlen (search_query (ed s)) < MAX_SEARCH /\
  strlen (filename s) < 1024 /\
  match md s with
  | Searching buf => strlen buf < MAX_SEARCH
  | Saving buf => strlen buf < 1024
  | _ => True
  end.
Proof.
  intros H. apply runs_sound in H as [_ (Hq & Hf & Hm)].
  split_and!; try lia. destruct (md s); try done; lia.
Qed.

Lemma prompt_buffers_fit_witness :
  strlen (search_query (ed sample_after_enter)) < MAX_SEARCH /\
  strlen (filename sample_after_enter) < 1024 /\
  match md sample_after_enter with
  | Searching buf => strlen buf < MAX_SEARCH
  | Saving buf => strlen buf < 1024
  | _ => True
  end.
Proof.
  apply (prompt_buffers_fit ncurses_keys sample_after_enter).
  apply (runs_key ncurses_keys true 10 sample_session);
    [apply runs_boot | reflexivity].
Defined.

(** *** The viewport *)

Lemma draw_screen_visible (rows : Z) (st : editor) :
  2 <= rows -> cursor_visible rows (draw_screen rows st).
Proof.
  intros Hrows. unfold draw_screen, cursor_visible, num_lines.
  destruct st as [ls x y top q u r cols a b]. cbn.
  repeat case_match; zbool; cbn in *; lia.
Qed.

(** X4.  On a screen of at least two rows [draw_screen] leaves the cursor's
    row among the rows shown, changing nothing but [top_line]; it changes
    nothing at all when the row was shown already, and otherwise scrolls
    just enough: to the cursor's row when that was above the viewport, and
    so that it is the last row shown when it was below. *)
Theorem draw_screen_scrolls_to_cursor (rows : Z) (st : editor) :
  cursor_ok st -> 2 <= rows ->
  cursor_visible rows (draw_screen rows st) /\
  draw_screen rows st = set_top_line (top_line (draw_screen rows st)) st /\
  (cursor_visible rows st -> draw_screen rows st = st) /\
  (cur_y st < top_line st -> top_line (draw_screen rows st) = cur_y st) /\
  (top_line st + (rows - 1) <= cur_y st ->
   top_line (draw_screen rows st) = cur_y st - (rows - 1) + 1).
Proof.
  intros [Hy Hx] Hrows. split; [by apply draw_screen_visible|].
  unfold draw_screen, cursor_visible, num_lines in *.
  destruct st as [ls x y top q u r cols a b]. cbn in *.
  repeat case_match; zbool; cbn in *; split_and!; try done; try lia;
    intros; try (f_equal; lia).
Qed.

Lemma draw_screen_scrolls_to_cursor_witness :
  cursor_visible 24 (draw_screen 24 (set_cursor 0 50 long_doc)) /\
  top_line (draw_screen 24 (set_cursor 0 50 long_doc)) = 50 - (24 - 1) + 1.
Proof.
  destruct (draw_screen_scrolls_to_cursor 24 (set_cursor 0 50 long_doc))
    as (H1 & _ & _ & _ & H5).
  - unfold cursor_ok. vm_compute. repeat split; congruence.
  - lia.
  - split; [exact H1|]. apply H5. vm_compute. congruence.
Defined.

(** X5.  Whenever a key brings the program back to the [getch] of the loop
    in [main], on a screen of at least two rows, the cursor's row is among
    the rows from [top_line] that the screen shows. *)
Theorem cursor_on_screen_after_key (k : curses_keys) (fopen_ok : bool)
    (ch : Z) (s s' : session) :
  key_step k fopen_ok ch s = Some s' ->
  md s' = Editing -> 2 <= scr_rows s ->
  cursor_visible (scr_rows s') (ed s').
Proof.
  unfold key_step, main_key, search_key, save_key.
  intros Hstep Hmd Hrows.
  assert (Hredraw : forall s0 st, scr_rows s0 = scr_rows s ->
            cursor_visible (scr_rows (redraw s0 st)) (ed (redraw s0 st))).
  { intros s0 st E. cbn. rewrite E. by apply draw_screen_visible. }
  assert (Hopt : forall o, redraw s <$> o = Some s' ->
            cursor_visible (scr_rows s') (ed s')).
  { intros [st|]; [|done]. intros [= <-]. by apply Hredraw. }
  destruct (md s) eqn:E; repeat case_match; simplify_eq/=;
    try (eapply Hopt; eassumption); try (by apply Hredraw);
    try (apply Hredraw; cbn; by rewrite ?(proj2 (proj2 (proj2 (do_save_ed _ _))))).
  all: congruence.
Qed.

Lemma cursor_on_screen_after_key_witness :
  cursor_visible (scr_rows sample_after_enter) (ed sample_after_enter).
Proof.
  apply (cursor_on_screen_after_key ncurses_keys true 10 sample_session);
    [reflexivity | reflexivity | vm_compute; congruence].
Defined.

(** ** Cursor keys and paging *)

(** *** Paging *)

(** X6.  [page_down] moves the cursor one page (the screen height minus
    one, at least 1) down, stopping at the last line, and the column back
    to the end of the new line if that is shorter; afterwards the cursor's
    row is within one page from [top_line], which is not negative.  The
    document is untouched. *)
Theorem page_down_moves_one_page (rows : Z) (st : editor) :
  cursor_ok st ->
  let st' := page_down rows st in
  cur_y st' = Z.min (cur_y st + page_height rows) (num_lines st - 1) /\
  cur_x st' = Z.min (cur_x st) (strlen (line_at st (cur_y st'))) /\
  top_line st' <= cur_y st' < top_line st' + page_height rows /\
  0 <= top_line st' /\
  lines st' = lines st.
Proof.
  intros [Hy Hx]. unfold page_down, page_height, clamp_x, line_at, num_lines, strlen in *.
  destruct st as [ls x y top q u r cols a b]. cbn in *.
  repeat case_match; zbool; cbn in *; split_and!; try done; try lia.
  all: replace y with (Z.of_nat (length ls) - 1) in * by lia; lia.
Qed.

Lemma page_down_moves_one_page_witness :
  cur_y (page_down 24 long_doc) = Z.min (cur_y long_doc + page_height 24)
                                        (num_lines long_doc - 1).
Proof.
  apply (page_down_moves_one_page 24 long_doc).
  unfold cursor_ok. vm_compute. repeat split; congruence.
Defined.

(** X7.  [page_up] moves the cursor one page up, stopping at the first
    line, and the column back to the end of the new line if that is
    shorter; [top_line] follows the cursor up and never moves down.  The
    document is untouched. *)
Theorem page_up_moves_one_page (rows : Z) (st : editor) :
  cursor_ok st -> 0 <= top_line st ->
  let st' := page_up rows st in
  cur_y st' = Z.max (cur_y st - page_height rows) 0 /\
  cur_x st' = Z.min (cur_x st) (strlen (line_at st (cur_y st'))) /\
  top_line st' = Z.min (top_line st) (cur_y st') /\
  lines st' = lines st.
Proof.
  intros [Hy Hx] Htop. unfold page_up, page_height, clamp_x, line_at, num_lines, strlen in *.
  destruct st as [ls x y top q u r cols a b]. cbn in *.
  repeat case_match; zbool; cbn in *; split_and!; try done; try lia.
Qed.

Lemma page_up_moves_one_page_witness :
  cur_y (page_up 24 long_doc) = Z.max (cur_y long_doc - page_height 24) 0.
Proof.
  apply (page_up_moves_one_page 24 long_doc).
  - unfold cursor_ok. vm_compute. repeat split; congruence.
  - vm_compute. congruence.
Defined.

(** X8.  Page down and then page up comes back to the row it started
    from, when the last line did not stop the move down. *)
Theorem page_down_then_up (rows : Z) (st : editor) :
  cursor_ok st ->
  cur_y st + page_height rows <= num_lines st - 1 ->
  cur_y (page_up rows (page_down rows st)) = cur_y st.
Proof.
  intros [Hy Hx]. unfold page_up, page_down, page_height, clamp_x, line_at,
    num_lines, strlen in *.
  destruct st as [ls x y top q u r cols a b]. cbn in *.
  repeat case_match; zbool; cbn in *; lia.
Qed.

Lemma page_down_then_up_witness :
  cur_y (page_up 24 (page_down 24 long_doc)) = cur_y long_doc.
Proof.
  apply (page_down_then_up 24 long_doc).
  - unfold cursor_ok. vm_compute. repeat split; congruence.
  - vm_compute. congruence.
Defined.

(** *** Left and right *)

(** X9.  Left and then right is no move at all, line boundaries included
    (from the start of a line left goes to the end of the line above, and
    right comes back), except at the start of the document, where left does
    nothing. *)
Theorem left_then_right (st : editor) :
  cursor_ok st ->
  (cur_x st, cur_y st) <> (0, 0) ->
  key_right (key_left st) = st.
Proof.
  intros [Hy Hx] Hne. unfold key_left, key_right, line_at, num_lines, strlen in *.
  destruct st as [ls x y top q u r cols a b]. cbn in *.
  repeat case_match; zbool; cbn in *; unfold set_cursor; cbn;
    try (f_equal; lia); try lia.
  all: try (exfalso; apply Hne; f_equal; lia).
Qed.

Lemma left_then_right_witness :
  key_right (key_left (doc [str "abc"; str "de"] 0 1)) = doc [str "abc"; str "de"] 0 1.
Proof.
  apply (left_then_right (doc [str "abc"; str "de"] 0 1)).
  - unfold cursor_ok. vm_compute. repeat split; congruence.
  - vm_compute. congruence.
Defined.

(** X10.  Right and then left is no move at all, except at the end of the
    document, where right does nothing. *)
Theorem right_then_left (st : editor) :
  cursor_ok st ->
  (cur_x st < strlen (line_at st (cur_y st)) \/ cur_y st < num_lines st - 1) ->
  key_left (key_right st) = st.
Proof.
  intros [Hy Hx] Hne. unfold key_left, key_right, line_at, num_lines, strlen in *.
  destruct st as [ls x y top q u r cols a b]. cbn in *.
  repeat case_match; zbool; cbn in *; unfold set_cursor; cbn;
    try (f_equal; lia); try lia.
  all: replace (y + 1 - 1) with y in * by lia; f_equal; lia.
Qed.

Lemma right_then_left_witness :
  key_left (key_right (doc [str "abc"; str "de"] 3 0)) = doc [str "abc"; str "de"] 3 0.
Proof.
  apply (right_then_left (doc [str "abc"; str "de"] 3 0)).
  - unfold cursor_ok. vm_compute. repeat split; congruence.
  - right. vm_compute. congruence.
Defined.

(** *** Edits undone by edits *)




Lemma backspace_deletes (st : editor) :
  0 < cur_x st ->
  lines (backspace st) =
    <[Z.to_nat (cur_y st) :=
        take (Z.to_nat (cur_x st) - 1) (line_at st (cur_y st)) ++
        drop (Z.to_nat (cur_x st)) (line_at st (cur_y st))]> (lines st) /\
  cur_x (backspace st) = cur_x st - 1 /\
  cur_y (backspace st) = cur_y st /\
  top_line (backspace st) = top_line st.
Proof.
  intros Hx. destruct (push_undo_same_live st) as (Hl & Hcx & Hcy & Ht).
  unfold backspace. rewrite Hcx, Hcy, !line_at_push_undo.
  destruct (Z.gtb_spec (cur_x st) 0); [|lia].
  cbn. by rewrite Hl, Ht.
Qed.

Lemma insert_char_inserts (c : Z) (st : editor) :
  allocs_succeed st ->
  cur_x st < scr_cols st - 1 ->
  strlen (line_at st (cur_y st)) + 2 < MAX_COL ->
  lines (insert_char c st) =
    <[Z.to_nat (cur_y st) :=
        cstr (take (Z.to_nat (cur_x st)) (line_at st (cur_y st)) ++
              char_of_int c :: drop (Z.to_nat (cur_x st)) (line_at st (cur_y st)))]>
      (lines st) /\
  cur_x (insert_char c st) = cur_x st + 1 /\
  cur_y (insert_char c st) = cur_y st /\
  top_line (insert_char c st) = top_line st.
Proof.
  intros Hok Hedge Hlen.
  destruct (push_undo_same_live st) as (Hl & Hcx & Hcy & Ht).
  destruct (push_undo_env st) as (_ & Hc & _).
  destruct (push_undo_captures st Hok) as (_ & _ & Ha).
  pose proof (allocs_succeed_hd _ Ha) as Hhd.
  unfold insert_char, malloc. rewrite Hcx, Hc, Hcy, line_at_push_undo, Hhd.
  destruct (Z.geb_spec (cur_x st) (scr_cols st - 1)); [lia|].
  destruct (Z.geb_spec (strlen (line_at st (cur_y st)) + 2) MAX_COL); [lia|].
  cbn. by rewrite Hl, Hcx, Hcy, Ht.
Qed.



(** X12.  [backspace] right after an [insert_char] that inserted (cursor
    left of the screen edge, line below the length cap, a character other
    than the terminator) removes the inserted byte: the document, the
    cursor and the viewport are as before. *)
Theorem insert_char_then_backspace (c : Z) (st : editor) :
  cursor_ok st -> allocs_succeed st ->
  nul_free (line_at st (cur_y st)) -> char_of_int c <> NUL ->
  cur_x st < scr_cols st - 1 ->
  strlen (line_at st (cur_y st)) + 2 < MAX_COL ->
  same_live (backspace (insert_char c st)) st.
Proof.
  intros Hc Hok Hnf Hch Hedge Hlen.
  destruct (insert_char_inserts c st Hok Hedge Hlen) as (Hl & Hx & Hy & Ht).
  destruct (cursor_row st Hc) as [Hrow Hlt].
  destruct Hc as [Hcy Hcx].
  set (ln := line_at st (cur_y st)) in *.
  set (x := Z.to_nat (cur_x st)) in *.
  assert (Hx_le : (x <= length ln)%nat) by (unfold strlen in *; lia).
  rewrite cstr_id in Hl.
  2:{ apply nul_free_app; [by apply nul_free_take|].
      constructor; [done|by apply nul_free_drop]. }
  assert (Hline : line_at (insert_char c st) (cur_y (insert_char c st))
                  = take x ln ++ char_of_int c :: drop x ln).
  { unfold line_at at 1. rewrite Hl, Hy, list_lookup_insert_eq by done. done. }
  destruct (backspace_deletes (insert_char c st)) as (Hl' & Hx' & Hy' & Ht'); [lia|].
  unfold same_live. rewrite Hl', Hx', Hy', Ht', Hline, Hl, Hx, Hy, Ht.
  split_and!; try done; try lia.
  replace (Z.to_nat (cur_x st + 1)) with (S x) by lia.
  replace (S x - 1)%nat with x by lia.
  rewrite take_app_length' by (rewrite length_take; lia).
  rewrite (cons_middle (char_of_int c)), app_assoc.
  rewrite drop_app_length' by (rewrite length_app, length_take; simpl; lia).
  rewrite take_drop, list_insert_insert_eq. by apply list_insert_id.
Qed.

Lemma insert_char_then_backspace_witness :
  same_live (backspace (insert_char 88 (doc [str "abc"; str "de"] 1 0)))
            (doc [str "abc"; str "de"] 1 0).
Proof.
  apply (insert_char_then_backspace 88 (doc [str "abc"; str "de"] 1 0)).
  - unfold cursor_ok. vm_compute. repeat split; congruence.
  - unfold allocs_succeed. simpl. constructor.
  - vm_compute. repeat (constructor; [congruence|]). constructor.
  - vm_compute. congruence.
  - vm_compute. congruence.
  - vm_compute. congruence.
Defined.

(** ** More on edits and history *)

(** *** Splits and merges move no byte *)

Lemma concat_merge_rows (ls : list line) (y : nat) (prev cur : line) :
  ls !! y = Some prev -> ls !! S y = Some cur ->
  concat (delete (S y) (<[y := prev ++ cur]> ls)) = concat ls.
Proof.
  revert ls. induction y as [|y IH]; intros [|a [|b ls]] Hp Hc; try done.
  - injection Hp as ->. injection Hc as ->. cbn. by rewrite app_assoc.
  - cbn. f_equal. by apply (IH (b :: ls)).
Qed.

(** X13.  A split or a merge moves no byte: after [newline], and after
    [backspace] at column 0, the lines read one after the other spell the
    same text as before, whether the edit went through or was refused. *)
Theorem split_and_merge_keep_text (st : editor) :
  cursor_ok st ->
  concat (lines (newline st)) = concat (lines st) /\
  (cur_x st = 0 -> concat (lines (backspace st)) = concat (lines st)).
Proof.
  intros Hc. split.
  - destruct (newline_outcome st Hc) as [(H & _)|(H & _)]; rewrite H; [done|].
    apply concat_split_rows, (cursor_row st Hc).
  - intros Hx.
    destruct (Z_le_gt_dec (cur_y st) 0) as [Hy0|Hy].
    { pose proof (refused_only_captures Backspace st) as R. cbn in R. rewrite R.
      - by destruct (push_undo_same_live st) as (-> & _).
      - apply andb_true_intro. split; [lia|].
        apply orb_true_intro. left. lia. }
    destruct (Z_lt_ge_dec (strlen (line_at st (cur_y st - 1)) +
                           strlen (line_at st (cur_y st)) + 1) MAX_COL) as [Hfit|Hbig].
    + destruct (backspace_merges st Hc Hx) as (Hl & _); [lia|done|].
      rewrite Hl. destruct (cursor_row st Hc) as [Hrow Hlt].
      replace (Z.to_nat (cur_y st)) with (S (Z.to_nat (cur_y st) - 1)) at 1 by lia.
      apply concat_merge_rows.
      * assert (Hlt' : (Z.to_nat (cur_y st) - 1 < length (lines st))%nat) by lia.
        destruct (lookup_lt_is_Some_2 _ _ Hlt') as [p Hp].
        unfold line_at. replace (Z.to_nat (cur_y st - 1)) with (Z.to_nat (cur_y st) - 1)%nat by lia.
        by rewrite Hp.
      * by replace (S (Z.to_nat (cur_y st) - 1)) with (Z.to_nat (cur_y st)) by lia.
    + pose proof (refused_only_captures Backspace st) as R. cbn in R. rewrite R.
      * by destruct (push_undo_same_live st) as (-> & _).
      * apply andb_true_intro. split; [lia|].
        apply orb_true_intro. right. lia.
Qed.

Lemma split_and_merge_keep_text_witness :
  concat (lines (newline (doc [str "abc"; str "de"] 0 1)))
    = concat (lines (doc [str "abc"; str "de"] 0 1)) /\
  concat (lines (backspace (doc [str "abc"; str "de"] 0 1)))
    = concat (lines (doc [str "abc"; str "de"] 0 1)).
Proof.
  destruct (split_and_merge_keep_text (doc [str "abc"; str "de"] 0 1)) as [H1 H2].
  - unfold cursor_ok. vm_compute. repeat split; congruence.
  - split; [exact H1 | apply H2; reflexivity].
Defined.

(** *** Line lengths *)

Lemma cstr_length (buf : list ascii) : (length (cstr buf) <= length buf)%nat.
Proof.
  induction buf as [|b buf IH]; simpl; [done|].
  destruct (Ascii.eqb b NUL); simpl; lia.
Qed.

Lemma short_take (B : Z) (n : nat) (ln : line) : short B ln -> short B (take n ln).
Proof. unfold short, strlen. rewrite length_take. lia. Qed.

Lemma short_drop (B : Z) (n : nat) (ln : line) : short B ln -> short B (drop n ln).
Proof. unfold short, strlen. rewrite length_drop. lia. Qed.

Lemma newline_short (B : Z) (st : editor) :
  cursor_ok st -> Forall (short B) (lines st) -> Forall (short B) (lines (newline st)).
Proof.
  intros Hc Hs.
  destruct (newline_outcome st Hc) as [(H & _)|(H & _)]; rewrite H; [done|].
  destruct (cursor_row st Hc) as [Hrow Hlt].
  pose proof (Forall_lookup_1 _ _ _ _ Hs Hrow) as Hln.
  unfold split_rows. rewrite Hrow. cbn.
  rewrite Forall_app, !Forall_cons.
  auto using Forall_take, Forall_drop, short_take, short_drop.
Qed.

(** X14.  No edit makes a line longer than [MAX_COL - 2] bytes: if every
    line is within a bound [B] of at least [MAX_COL - 2], it still is after
    [insert_char], [backspace] or [newline], whatever the allocations
    do. *)
Theorem edits_keep_lines_short (e : edit) (st : editor) (B : Z) :
  MAX_COL - 2 <= B ->
  cursor_ok st ->
  Forall (short B) (lines st) ->
  Forall (short B) (lines (apply_edit e st)).
Proof.
  intros HB Hc Hs.
  destruct (push_undo_same_live st) as (Hl & Hx & Hy & Ht).
  destruct (cursor_row st Hc) as [Hrow Hlt].
  pose proof (Forall_lookup_1 _ _ _ _ Hs Hrow) as Hln.
  destruct e as [c| |]; cbn.
  - unfold insert_char.
    destruct (_ >=? _).
    + pose proof (newline_short B (push_undo st)) as H.
      rewrite Hl in H. apply H; [|done].
      unfold cursor_ok, num_lines. by rewrite line_at_push_undo, Hl, Hx, Hy.
    + unfold malloc. rewrite line_at_push_undo, Hy. cbn.
      repeat case_match; zbool; cbn; rewrite ?Hl; try done.
      apply Forall_insert; [done|]. unfold short, strlen in *.
      pose proof (cstr_length (take (Z.to_nat (cur_x (push_undo st))) (line_at st (cur_y st)) ++
        char_of_int c :: drop (Z.to_nat (cur_x (push_undo st))) (line_at st (cur_y st)))) as Hcs.
      rewrite length_app, length_take in Hcs. simpl in Hcs.
      rewrite length_drop in Hcs. lia.
  - unfold backspace. rewrite Hx, Hy, !line_at_push_undo. cbn.
    repeat case_match; zbool; cbn; rewrite ?Hl; try done.
    + apply Forall_insert; [done|]. unfold short, strlen in *.
      rewrite length_app, length_take, length_drop. lia.
    + apply Forall_delete, Forall_insert; [done|]. unfold short, strlen in *.
      rewrite length_app. lia.
  - by apply newline_short.
Qed.

Lemma edits_keep_lines_short_witness :
  Forall (short (MAX_COL - 2))
    (lines (apply_edit Backspace (doc [str "abc"; str "de"] 0 1))).
Proof.
  apply (edits_keep_lines_short Backspace (doc [str "abc"; str "de"] 0 1) (MAX_COL - 2)).
  - lia.
  - unfold cursor_ok. vm_compute. repeat split; congruence.
  - repeat (constructor; [unfold short; vm_compute; congruence|]). constructor.
Defined.

(** *** History *)

(** X15.  With something to redo (the top redo snapshot holding its lines,
    allocations succeeding), [do_redo] followed at once by [do_undo] leaves
    the document, the cursor and the viewport as they were, and both stacks
    too when the undo stack was not full. *)
Theorem redo_then_undo_round_trip (st : editor) (r : UndoSnapshot) :
  last (redo_stack st) = Some r ->
  holds_lines r ->
  allocs_succeed st ->
  exists st1 st2,
    do_redo st = Some st1 /\ do_undo st1 = Some st2 /\
    same_live st2 st /\
    (undo_count st < UNDO_DEPTH -> undo_stack st2 = undo_stack st) /\
    (redo_count st <= UNDO_DEPTH -> redo_stack st2 = redo_stack st).
Proof.
  intros Hlast [ls Hls] Hok.
  pose proof (allocs_succeed_hd st Hok) as Hhd.
  eexists. eexists. split; [by apply (do_redo_top _ _ ls Hlast)|].
  rewrite Hhd. split.
  - apply (do_undo_top _ (snapshot st) (lines st)); cbn;
      [apply last_save_current | done].
  - cbn.
    assert (Htl : hd true (tail (allocs st)) = true)
      by apply all_true_hd, all_true_tail, Hok.
    rewrite Htl. split_and!; try done.
    + intros Hcap. by apply removelast_save_current.
    + intros Hcap. pose proof (snoc_removelast _ _ Hlast) as Hsnoc.
      assert (Hlen : Z.of_nat (length (removelast (redo_stack st))) < UNDO_DEPTH).
      { unfold redo_count in Hcap. rewrite <- Hsnoc in Hcap.
        rewrite length_app in Hcap. simpl in Hcap. lia. }
      unfold save_current.
      destruct (Z.ltb_spec (Z.of_nat (length (removelast (redo_stack st)))) UNDO_DEPTH);
        [|lia].
      rewrite <- Hsnoc at 2. f_equal. f_equal.
      destruct r; simpl in *. unfold snapshot; simpl. by subst.
Qed.

Lemma redo_then_undo_round_trip_witness :
  exists st1 st2,
    do_redo undone_case = Some st1 /\ do_undo st1 = Some st2 /\
    same_live st2 undone_case /\
    (undo_count undone_case < UNDO_DEPTH -> undo_stack st2 = undo_stack undone_case) /\
    (redo_count undone_case <= UNDO_DEPTH -> redo_stack st2 = redo_stack undone_case).
Proof.
  apply (redo_then_undo_round_trip undone_case
           (snapshot (newline (doc [str "abc"] 1 0)))).
  - reflexivity.
  - eexists. reflexivity.
  - unfold allocs_succeed. simpl. constructor.
Defined.

Lemma last_make_room_snoc (u : list UndoSnapshot) (s : UndoSnapshot) :
  last (make_room (u ++ [s])) = Some s.
Proof.
  unfold make_room, drop_oldest.
  destruct (_ =? _) eqn:E; [|apply last_snoc].
  destruct u as [|a u]; [done|]. simpl. apply last_snoc.
Qed.

(** X16.  At the screen edge [insert_char] captures and then calls
    [newline], which captures the same state again.  So, allocations
    succeeding, after such a key the first [do_undo] brings back the state
    before it, and the second [do_undo] brings back that same state once
    more: it changes nothing on the screen. *)
Theorem wrapped_insert_takes_two_undos (c : Z) (st : editor) :
  allocs_succeed st ->
  cur_x st >= scr_cols st - 1 ->
  exists st1 st2,
    do_undo (insert_char c st) = Some st1 /\
    do_undo st1 = Some st2 /\
    same_live st1 st /\ same_live st2 st.
Proof.
  intros Hok Hedge.
  destruct (insert_char_history c st Hok) as (Hu & _ & Ha).
  destruct (Z.geb_spec (cur_x st) (scr_cols st - 1)); [|lia].
  eexists. eexists. split.
  { apply (do_undo_top _ (snapshot st) (lines st)); [|done].
    rewrite Hu. apply last_snoc. }
  split.
  { apply (do_undo_top _ (snapshot st) (lines st)); [|done].
    cbn. rewrite Hu, removelast_last. apply last_make_room_snoc. }
  done.
Qed.

Lemma wrapped_insert_takes_two_undos_witness :
  exists st1 st2,
    do_undo (insert_char 98 edge_case) = Some st1 /\
    do_undo st1 = Some st2 /\
    same_live st1 edge_case /\ same_live st2 edge_case.
Proof.
  apply (wrapped_insert_takes_two_undos 98 edge_case).
  - unfold allocs_succeed. simpl. constructor.
  - vm_compute. congruence.
Defined.

Lemma single_capture_history (e : edit) (st : editor) :
  allocs_succeed st -> captures_once e st = true ->
  undo_stack (apply_edit e st) = make_room (undo_stack st) ++ [snapshot st] /\
  allocs_succeed (apply_edit e st).
Proof.
  intros Hok Hone. destruct e as [c| |]; cbn in *.
  - destruct (insert_char_history c st Hok) as (Hu & _ & Ha).
    destruct (Z.geb_spec (cur_x st) (scr_cols st - 1)); [zbool; lia|done].
  - by destruct (backspace_history st Hok) as (Hu & _ & Ha).
  - by destruct (newline_history st Hok) as (Hu & _ & Ha).
Qed.

Lemma make_room_suffix (pre suf : list UndoSnapshot) :
  Z.of_nat (length suf) < UNDO_DEPTH ->
  exists pre', make_room (pre ++ suf) = pre' ++ suf.
Proof.
  intros Hlen. unfold make_room, drop_oldest.
  destruct (Z.eqb_spec (Z.of_nat (length (pre ++ suf))) UNDO_DEPTH) as [E|E];
    [|by exists pre].
  destruct pre as [|a pre]; [simpl in E; lia|]. by exists pre.
Qed.

Lemma edits_extend_history (es : list edit) (st : editor)
    (pre suf : list UndoSnapshot) :
  allocs_succeed st -> all_capture_once es st = true ->
  undo_stack st = pre ++ suf ->
  Z.of_nat (length suf) + Z.of_nat (length es) <= UNDO_DEPTH ->
  allocs_succeed (apply_edits es st) /\
  exists pre',
    undo_stack (apply_edits es st) =
      pre' ++ suf ++ map snapshot (states_before es st).
Proof.
  revert st pre suf. induction es as [|e es IH]; intros st pre suf Hok Hall Hu Hlen.
  - split; [done|]. exists pre. cbn. by rewrite app_nil_r.
  - cbn in *. apply andb_prop in Hall as [Hone Hall].
    destruct (single_capture_history e st Hok Hone) as (Hu' & Ha).
    destruct (make_room_suffix pre suf) as [pre' Hpre]; [lia|].
    rewrite Hu, Hpre, <- app_assoc in Hu'.
    destruct (IH _ pre' (suf ++ [snapshot st]) Ha Hall Hu') as (Ha' & pre'' & Hfin).
    { rewrite length_app. simpl. lia. }
    split; [done|]. exists pre''. by rewrite Hfin, <- app_assoc.
Qed.

Lemma undos_pop_history (l : list editor) :
  forall (z : editor) (st : editor) (pre : list UndoSnapshot),
    allocs_succeed st ->
    undo_stack st = pre ++ map snapshot (l ++ [z]) ->
    exists st', undo_times (S (length l)) st = Some st' /\
                same_live st' (hd z l).
Proof.
  induction l as [|z' l IH] using rev_ind; intros z st pre Hok Hu.
  - cbn in Hu. cbn [undo_times length].
    rewrite (do_undo_top st (snapshot z) (lines z));
      [|by rewrite Hu, last_snoc|done].
    eexists. split; [reflexivity|done].
  - change (undo_times (S (length (l ++ [z']))) st)
      with (do_undo st ≫= undo_times (length (l ++ [z']))).
    rewrite (do_undo_top st (snapshot z) (lines z)).
    2:{ rewrite Hu, map_app, app_assoc. apply last_snoc. }
    2: done.
    cbn [mbind option_bind].
    match goal with |- context [undo_times _ ?s] => set (s1 := s) end.
    destruct (IH z' s1 pre) as (st' & Hst' & Hlive).
    + apply all_true_tail, Hok.
    + subst s1. cbn. rewrite Hu, map_app, app_assoc. cbn.
      by rewrite removelast_last.
    + exists st'. rewrite length_app. cbn [length].
      replace (length l + 1)%nat with (S (length l)) by lia.
      split; [done|].
      destruct l; done.
Qed.

Lemma states_before_length (es : list edit) (st : editor) :
  length (states_before es st) = length es.
Proof. revert st. induction es as [|e es IH]; intros st; cbn; [done|]. by rewrite IH. Qed.

(** X17.  After up to [UNDO_DEPTH] edits, each capturing once (no
    [insert_char] at the screen edge) and every allocation succeeding, as
    many [do_undo]s all succeed and bring back the document, the cursor
    and the viewport from before the first of the edits, however deep the
    undo stack was to begin with. *)
Theorem undo_unwinds_edits (es : list edit) (st : editor) :
  allocs_succeed st -> all_capture_once es st = true ->
  Z.of_nat (length es) <= UNDO_DEPTH ->
  exists st', undo_times (length es) (apply_edits es st) = Some st' /\
              same_live st' st.
Proof.
  intros Hok Hall Hlen.
  destruct es as [|e es]; [by exists st|].
  destruct (edits_extend_history (e :: es) st (undo_stack st) [] Hok Hall)
    as (Ha & pre & Hu).
  { by rewrite app_nil_r. }
  { cbn [length] in *. lia. }
  cbn [app] in Hu.
  assert (Hsnoc : exists l z, states_before (e :: es) st = l ++ [z] /\
                              hd z l = st /\ length l = length es).
  { pose proof (states_before_length (e :: es) st) as Hl.
    destruct (states_before (e :: es) st) as [|a t] eqn:E using rev_ind;
      [done|].
    exists t, a. clear IHt. rewrite length_app in Hl. cbn in Hl.
    split; [done|]. split; [|lia].
    cbn in E. destruct t as [|t0 t]; cbn in *; by simplify_eq. }
  destruct Hsnoc as (l & z & Hl & Hhd & Hlen').
  rewrite Hl in Hu.
  destruct (undos_pop_history l z _ pre Ha Hu) as (st' & Hst' & Hlive).
  exists st'. cbn [length]. split.
  - rewrite <- Hlen'. exact Hst'.
  - rewrite <- Hhd. exact Hlive.
Qed.

Lemma undo_unwinds_edits_witness :
  exists st',
    undo_times 3 (apply_edits [InsertChar 88; Newline; Backspace]
                    (doc [str "abc"; str "de"] 1 0)) = Some st' /\
    same_live st' (doc [str "abc"; str "de"] 1 0).
Proof.
  apply (undo_unwinds_edits [InsertChar 88; Newline; Backspace]
           (doc [str "abc"; str "de"] 1 0)).
  - unfold allocs_succeed. simpl. constructor.
  - reflexivity.
  - vm_compute. congruence.
Defined.

(** ** What a search finds *)

Lemma strstr_none (hay needle : list ascii) (j : nat) :
  strstr hay needle = None -> starts_with needle (drop j hay) = false.
Proof.
  revert j. induction hay as [|b hay IH]; intros j; simpl.
  - destruct (starts_with needle []) eqn:E; [done|]. intros _. by destruct j.
  - destruct (starts_with needle (b :: hay)) eqn:E; [done|].
    destruct (strstr hay needle) as [i|] eqn:Hi; [done|]. intros _.
    destruct j as [|j]; [done|]. simpl. by apply IH.
Qed.

Lemma scan_rows_none (rows : list line) (y : Z) (q : line) (i : nat) (ln : line) :
  scan_rows rows y q = None -> rows !! i = Some ln -> strstr ln q = None.
Proof.
  revert y i. induction rows as [|r rows IH]; intros y i; simpl; [done|].
  destruct (strstr r q) as [x|] eqn:Hx; [done|]. intros H.
  destruct i as [|i]; simpl.
  - by intros [= <-].
  - by apply (IH (y + 1)).
Qed.

Lemma scan_rows_first (rows : list line) (y : Z) (q : line) (y' x' : Z) :
  scan_rows rows y q = Some (y', x') ->
  exists (ln : line) (k : nat),
    y <= y' /\ rows !! Z.to_nat (y' - y) = Some ln /\
    strstr ln q = Some k /\ x' = Z.of_nat k /\
    forall (i : nat) (l : line),
      (i < Z.to_nat (y' - y))%nat -> rows !! i = Some l -> strstr l q = None.
Proof.
  revert y. induction rows as [|r rows IH]; intros y; simpl; [done|].
  destruct (strstr r q) as [x|] eqn:Hx.
  - intros [= <- <-]. exists r, x. rewrite Z.sub_diag.
    split_and!; try done; lia.
  - intros H. destruct (IH _ H) as (ln & k & Hle & Hrow & Hk & -> & Hnone).
    exists ln, k.
    replace (Z.to_nat (y' - y)) with (S (Z.to_nat (y' - (y + 1)))) by lia.
    split_and!; try done; try lia.
    intros [|i] l Hi; simpl.
    + by intros [= <-].
    + apply Hnone. lia.
Qed.

Lemma occurs_at_row (st : editor) (y x : Z) (ln : line) :
  lines st !! Z.to_nat y = Some ln ->
  occurs_at st y x = starts_with (search_query st) (drop (Z.to_nat x) ln).
Proof. intros H. unfold occurs_at, line_at. by rewrite H. Qed.

Lemma scanned_row (st : editor) (y x : Z) :
  scanned st y x -> lines st !! Z.to_nat y = Some (line_at st y).
Proof.
  intros ([Hy1 Hy2] & _). unfold num_lines in Hy2.
  assert (Hlt : (Z.to_nat y < length (lines st))%nat) by lia.
  unfold line_at. by destruct (lookup_lt_is_Some_2 _ _ Hlt) as [ln ->].
Qed.

(** What the three scans have seen when each of them failed. *)
Lemma no_match_right_of_cursor (st : editor) (x : Z) :
  strstr (drop (Z.to_nat (cur_x st + 1)) (line_at st (cur_y st))) (search_query st) = None ->
  cur_x st < x -> 0 <= cur_x st ->
  occurs_at st (cur_y st) x = false.
Proof.
  intros Hnone Hx H0. unfold occurs_at.
  replace (Z.to_nat x) with (Z.to_nat (cur_x st + 1) + Z.to_nat (x - (cur_x st + 1)))%nat by lia.
  rewrite <- drop_drop. by apply strstr_none.
Qed.

Lemma no_match_below (st : editor) (y x : Z) :
  scan_rows (drop (S (Z.to_nat (cur_y st))) (lines st)) (cur_y st + 1) (search_query st) = None ->
  scanned st y x -> 0 <= cur_y st < y ->
  occurs_at st y x = false.
Proof.
  intros Hnone Hs Hy. pose proof (scanned_row _ _ _ Hs) as Hrow.
  rewrite (occurs_at_row _ _ _ _ Hrow). apply strstr_none.
  apply (scan_rows_none _ _ _ (Z.to_nat y - S (Z.to_nat (cur_y st))) _ Hnone).
  rewrite lookup_drop. by replace (S (Z.to_nat (cur_y st)) + (Z.to_nat y - S (Z.to_nat (cur_y st))))%nat
    with (Z.to_nat y) by lia.
Qed.

Lemma no_match_above (st : editor) (y x : Z) :
  scan_rows (take (Z.to_nat (cur_y st)) (lines st)) 0 (search_query st) = None ->
  scanned st y x -> y < cur_y st ->
  occurs_at st y x = false.
Proof.
  intros Hnone Hs Hy. pose proof (scanned_row _ _ _ Hs) as Hrow.
  destruct Hs as ([Hy0 _] & _).
  rewrite (occurs_at_row _ _ _ _ Hrow). apply strstr_none.
  apply (scan_rows_none _ _ _ (Z.to_nat y) _ Hnone).
  rewrite lookup_take_lt by lia. done.
Qed.

(** X18.  When [search_forward], with a query set, ends in its "not found"
    [beep()], the query occurs nowhere in the positions it looks at: in no
    row other than the cursor's, and not right of the cursor in the
    cursor's row. *)
Theorem search_not_found_means_absent (st : editor) :
  cursor_ok st ->
  search_query st <> [] ->
  search_forward st = Some (beep st) ->
  forall y x : Z, scanned st y x -> occurs_at st y x = false.
Proof.
  intros [Hy Hx] Hq. unfold search_forward, wrap_around.
  destruct (search_query st) as [|q0 q] eqn:Eq; [done|]. rewrite <- Eq. clear Hq.
  destruct (Z.ltb_spec (cur_y st) (num_lines st)); [|lia].
  destruct (_ >? _); [done|].
  assert (Hbeep : forall x y, Some (set_cursor x y st) <> Some (beep st)).
  { intros x y E. apply (f_equal (fmap beeps)) in E. cbn in E.
    injection E. lia. }
  destruct (strstr _ _) as [k|] eqn:Hk.
  { intros E. by apply Hbeep in E. }
  destruct (scan_rows (drop _ _) _ _) as [[y' x']|] eqn:Hafter.
  { intros E. by apply Hbeep in E. }
  destruct (scan_rows (take _ _) _ _) as [[y' x']|] eqn:Hbefore.
  { intros E. by apply Hbeep in E. }
  intros _ y x Hs.
  destruct (Z.lt_trichotomy y (cur_y st)) as [Hlt|[->|Hgt]].
  - by apply no_match_above.
  - destruct Hs as (_ & _ & Hright). apply no_match_right_of_cursor; [done| |lia].
    by apply Hright.
  - apply no_match_below; [done|done|lia].
Qed.

Lemma search_not_found_means_absent_witness :
  occurs_at prefix_case 0 0 = false.
Proof.
  apply (search_not_found_means_absent prefix_case).
  - unfold cursor_ok. vm_compute. repeat split; congruence.
  - vm_compute. congruence.
  - reflexivity.
  - unfold scanned. vm_compute. repeat split; congruence.
Defined.

Lemma occurrence_in_line (q0 : ascii) (q ln : line) (x : nat) :
  starts_with (q0 :: q) (drop x ln) = true -> (x < length ln)%nat.
Proof.
  intros H. destruct (Nat.le_gt_cases (length ln) x) as [Hge|]; [|done].
  by rewrite drop_ge in H.
Qed.

(** X19.  When [search_forward] moves the cursor, it changes nothing else
    and puts it on the first occurrence of the query in the order of its
    scan: the cursor's row right of the cursor, then the rows below, then
    the rows from the top down to the one above the cursor, each row from
    left to right.  The new position is one of those the scan looks at, so
    it is never the cursor's own position or one left of it in the same
    row. *)
Theorem search_finds_first (st st' : editor) :
  cursor_ok st ->
  search_forward st = Some st' ->
  st' <> beep st ->
  st' = set_cursor (cur_x st') (cur_y st') st /\
  scanned st (cur_y st') (cur_x st') /\
  occurs_at st (cur_y st') (cur_x st') = true /\
  forall y x : Z,
    scanned st y x ->
    scanned_before st y x (cur_y st') (cur_x st') ->
    occurs_at st y x = false.
Proof.
  intros Hc Hsearch Hmoved. pose proof Hc as [Hy Hx].
  destruct (cursor_row st Hc) as [Hrow Hlt].
  unfold search_forward, wrap_around in Hsearch.
  destruct (search_query st) as [|q0 q] eqn:Eq; [by injection Hsearch as <-|].
  rewrite <- Eq in Hsearch.
  destruct (Z.ltb_spec (cur_y st) (num_lines st)); [|lia].
  destruct (_ >? _); [done|].
  destruct (strstr _ _) as [k|] eqn:Hk.
  { (* on the cursor's row, right of the cursor *)
    injection Hsearch as <-. cbn.
    pose proof (strstr_sound _ _ _ Hk) as Hocc. rewrite drop_drop in Hocc.
    replace (Z.to_nat (cur_x st + 1) + k)%nat
      with (Z.to_nat (cur_x st + 1 + Z.of_nat k)) in Hocc by lia.
    pose proof Hocc as Hin. rewrite Eq in Hin. apply occurrence_in_line in Hin.
    split_and!; try done.
    - unfold scanned, strlen. split_and!; lia.
    - intros y x Hs [Hturn|[-> Hxlt]].
      + unfold scan_turn in Hturn. destruct Hs as ([? ?] & _).
        repeat case_match; zbool; lia.
      + destruct Hs as (_ & [Hx0 _] & Hright). specialize (Hright eq_refl).
        unfold occurs_at.
        replace (Z.to_nat x)
          with (Z.to_nat (cur_x st + 1) + Z.to_nat (x - (cur_x st + 1)))%nat by lia.
        rewrite <- drop_drop. apply (strstr_first _ _ k); [done|lia]. }
  destruct (scan_rows (drop _ _) _ _) as [[y' x']|] eqn:Hafter.
  { (* on a row below *)
    injection Hsearch as <-. cbn.
    destruct (scan_rows_first _ _ _ _ _ Hafter)
      as (ln & j & Hle & Hln & Hj & -> & Hnone).
    rewrite lookup_drop in Hln.
    replace (S (Z.to_nat (cur_y st)) + Z.to_nat (y' - (cur_y st + 1)))%nat
      with (Z.to_nat y') in Hln by lia.
    pose proof (lookup_lt_Some _ _ _ Hln) as Hy'.
    pose proof (strstr_sound _ _ _ Hj) as Hocc.
    pose proof Hocc as Hin. rewrite Eq in Hin. apply occurrence_in_line in Hin.
    assert (Hline : line_at st y' = ln) by (unfold line_at; by rewrite Hln).
    split_and!; try done.
    - unfold scanned, strlen, num_lines. rewrite Hline. split_and!; lia.
    - unfold occurs_at. by rewrite Hline, Nat2Z.id.
    - intros y x Hs Hbefore.
      assert (Hcases : y = cur_y st \/ (cur_y st < y < y') \/ (y = y' /\ x < Z.of_nat j)).
      { destruct Hbefore as [Hturn|[-> ?]]; [|lia].
        unfold scan_turn in Hturn. destruct Hs as ([? ?] & _).
        unfold num_lines in *. repeat case_match; zbool; lia. }
      destruct Hcases as [->|[Hmid|[-> Hxlt]]].
      + destruct Hs as (_ & _ & Hright). apply no_match_right_of_cursor; [done| |lia].
        by apply Hright.
      + pose proof (scanned_row _ _ _ Hs) as Hr.
        rewrite (occurs_at_row _ _ _ _ Hr). apply strstr_none.
        apply (Hnone (Z.to_nat y - S (Z.to_nat (cur_y st)))%nat); [lia|].
        rewrite lookup_drop.
        by replace (S (Z.to_nat (cur_y st)) + (Z.to_nat y - S (Z.to_nat (cur_y st))))%nat
          with (Z.to_nat y) by lia.
      + destruct Hs as (_ & [Hx0 _] & _).
        rewrite (occurs_at_row _ _ _ _ Hln).
        apply (strstr_first _ _ j); [done|lia]. }
  destruct (scan_rows (take _ _) _ _) as [[y' x']|] eqn:Hbefore.
  - (* on a row above, after the wrap *)
    injection Hsearch as <-. cbn.
    destruct (scan_rows_first _ _ _ _ _ Hbefore)
      as (ln & j & Hle & Hln & Hj & -> & Hnone).
    rewrite Z.sub_0_r in Hln, Hnone.
    apply lookup_take_Some in Hln as [Hln Hy'].
    pose proof (strstr_sound _ _ _ Hj) as Hocc.
    pose proof Hocc as Hin. rewrite Eq in Hin. apply occurrence_in_line in Hin.
    assert (Hline : line_at st y' = ln) by (unfold line_at; by rewrite Hln).
    split_and!; try done.
    + unfold scanned, strlen, num_lines. rewrite Hline. split_and!; lia.
    + unfold occurs_at. by rewrite Hline, Nat2Z.id.
    + intros y x Hs Hbef.
      assert (Hcases : y = cur_y st \/ cur_y st < y \/ y < y' \/
                       (y = y' /\ x < Z.of_nat j)).
      { destruct Hbef as [Hturn|[-> ?]]; [|lia].
        unfold scan_turn in Hturn. destruct Hs as ([? ?] & _).
        unfold num_lines in *. repeat case_match; zbool; lia. }
      destruct Hcases as [->|[Hbelow|[Habove|[-> Hxlt]]]].
      * destruct Hs as (_ & _ & Hright). apply no_match_right_of_cursor; [done| |lia].
        by apply Hright.
      * apply no_match_below; [done|done|lia].
      * pose proof (scanned_row _ _ _ Hs) as Hr. destruct Hs as ([? ?] & _).
        rewrite (occurs_at_row _ _ _ _ Hr). apply strstr_none.
        apply (Hnone (Z.to_nat y)); [lia|].
        by rewrite lookup_take_lt by lia.
      * destruct Hs as (_ & [Hx0 _] & _).
        rewrite (occurs_at_row _ _ _ _ Hln).
        apply (strstr_first _ _ j); [done|lia].
  - by injection Hsearch as <-.
Qed.

Lemma search_finds_first_witness :
  scanned (searching [str "abc"; str "xzy"; str "abx"] 2 2 (str "ab")) 0 0 /\
  occurs_at (searching [str "abc"; str "xzy"; str "abx"] 2 2 (str "ab")) 0 0 = true.
Proof.
  destruct (search_finds_first
              (searching [str "abc"; str "xzy"; str "abx"] 2 2 (str "ab"))
              (set_cursor 0 0 (searching [str "abc"; str "xzy"; str "abx"] 2 2 (str "ab"))))
    as (_ & H2 & H3 & _).
  - unfold cursor_ok. vm_compute. repeat split; congruence.
  - reflexivity.
  - vm_compute. congruence.
  - split; [exact H2 | exact H3].
Defined.

(** ** Saving and loading *)

Lemma getline_records_line (ln cur rest : list ascii) :
  Forall (fun b => b <> "010"%char) ln ->
  getline_records cur (ln ++ "010"%char :: rest)
  = (rev cur ++ ln ++ ["010"%char]) :: getline_records [] rest.
Proof.
  revert cur. induction ln as [|b ln IH]; intros cur Hnl; cbn.
  - done.
  - inversion Hnl as [|? ? Hb Hrest]; subst.
    destruct (Ascii.eqb_spec b "010"%char); [done|].
    rewrite IH by done. cbn. by rewrite <- app_assoc.
Qed.

Lemma getline_records_text (ls : list line) :
  Forall (Forall (fun b => b <> "010"%char)) ls ->
  getline_records [] (concat (map (fun ln => ln ++ ["010"%char]) ls))
  = map (fun ln => ln ++ ["010"%char]) ls.
Proof.
  induction 1 as [|ln ls Hln _ IH]; cbn; [done|].
  rewrite <- app_assoc. cbn. rewrite getline_records_line by done.
  cbn. by rewrite IH.
Qed.

Lemma strip_eol_plain (ln : line) :
  last ln <> Some "013"%char -> last ln <> Some "010"%char ->
  strip_eol (ln ++ ["010"%char]) = ln.
Proof.
  intros Hcr Hnl. unfold strip_eol. rewrite rev_app_distr. cbn.
  destruct ln as [|b ln _] using rev_ind; [done|].
  rewrite last_snoc in Hcr, Hnl.
  rewrite rev_app_distr. cbn. unfold is_eol.
  destruct (Ascii.eqb_spec b "010"%char); [congruence|].
  destruct (Ascii.eqb_spec b "013"%char); [congruence|].
  cbn. by rewrite rev_involutive.
Qed.

Lemma plain_line_load (ln : line) :
  plain_line ln -> cstr (strip_eol (ln ++ ["010"%char])) = ln.
Proof.
  intros (Hnul & Hnl & Hcr). rewrite strip_eol_plain, cstr_id; try done.
  intros Hlast. apply last_Some in Hlast as [l' ->].
  apply Forall_app in Hnl as [_ Hnl]. by inversion Hnl.
Qed.

(** X20.  Saving and loading again gives the same document: for a
    document of at most [MAX_LINES] lines, none with a newline inside or a
    carriage return at its end, [save_file] with a file name and a
    successful [fopen] returns 0 and writes a text from which [getline] and
    [load_file] rebuild exactly the lines saved. *)
Theorem save_then_load (st st0 : editor) (path fname : line) :
  path <> [] ->
  1 <= num_lines st <= MAX_LINES ->
  Forall plain_line (lines st) ->
  exists text,
    save_file (Some path) fname true st = (0, Some (path, text)) /\
    lines (load_file (Some (getline_records [] text)) st0) = lines st.
Proof.
  intros Hpath Hn Hplain. exists (file_text st). split.
  - unfold save_file. by destruct path.
  - unfold load_file, file_text. rewrite getline_records_text.
    2:{ eapply Forall_impl; [exact Hplain|]. by intros ln (_ & H & _). }
    rewrite take_ge by (rewrite length_map; unfold num_lines in Hn; lia).
    rewrite map_map.
    assert (Hmap : map (fun buf => cstr (strip_eol (buf ++ ["010"%char]))) (lines st)
                   = lines st).
    { clear Hn. induction Hplain as [|ln ls Hln _ IH]; cbn; [done|].
      by rewrite plain_line_load, IH. }
    rewrite Hmap. unfold num_lines in Hn.
    destruct (lines st); [simpl in Hn; lia|done].
Qed.

Lemma save_then_load_witness :
  exists text,
    save_file (Some (str "notes.txt")) [] true (doc [str "abc"; str ""; str "de"] 0 0)
      = (0, Some (str "notes.txt", text)) /\
    lines (load_file (Some (getline_records [] text)) (doc [] 0 0))
      = lines (doc [str "abc"; str ""; str "de"] 0 0).
Proof.
  apply (save_then_load (doc [str "abc"; str ""; str "de"] 0 0) (doc [] 0 0)
           (str "notes.txt") []).
  - vm_compute. congruence.
  - vm_compute. split; congruence.
  - unfold plain_line, nul_free. vm_compute.
    repeat (constructor;
            [split; [|split];
             [repeat (constructor; [congruence|]); constructor
             |repeat (constructor; [congruence|]); constructor
             |congruence]|]).
    constructor.
Defined.

(** ** The search prompt *)

Lemma search_key_types (k : curses_keys) (buf : line) (ch : Z) (s : session) :
  function_keys_high k -> printable ch -> strlen buf < MAX_SEARCH - 1 ->
  search_key k buf ch s = Some (enter_mode (Searching (buf ++ [char_of_int ch])) s).
Proof.
  intros (_ & _ & _ & _ & _ & _ & Hb & He) [Hlo Hhi] Hlen.
  unfold search_key, prompt_type.
  destruct (Z.eqb_spec ch 27); [lia|].
  destruct (Z.eqb_spec ch 10); [lia|].
  destruct (Z.eqb_spec ch (KEY_ENTER k)); [lia|].
  destruct (Z.eqb_spec ch (KEY_BACKSPACE k)); [lia|].
  destruct (Z.eqb_spec ch 127); [lia|].
  destruct (Z.leb_spec 32 ch); [|lia].
  destruct (Z.ltb_spec ch 127); [|lia].
  destruct (Z.ltb_spec (strlen buf) (MAX_SEARCH - 1)); [|lia].
  done.
Qed.

Lemma feed_typing (k : curses_keys) (cs : list Z) (buf : line) (s : session)
    (rest : list Z) :
  function_keys_high k -> Forall printable cs ->
  strlen buf + Z.of_nat (length cs) <= MAX_SEARCH - 1 ->
  md s = Searching buf ->
  feed k (cs ++ rest) s
  = feed k rest (enter_mode (Searching (buf ++ map char_of_int cs)) s).
Proof.
  intros Hk Hp. revert buf s.
  induction Hp as [|c cs Hc _ IH]; intros buf s Hlen Hmd; cbn.
  - rewrite app_nil_r. destruct s; cbn in *. by subst.
  - unfold key_step. rewrite Hmd.
    rewrite search_key_types; [|done|done|cbn in Hlen; lia].
    cbn. rewrite (IH (buf ++ [char_of_int c])).
    + cbn. by rewrite <- app_assoc.
    + unfold strlen in *. rewrite length_app. cbn in *. lia.
    + done.
Qed.

(** X21.  Ctrl-F, a text of printable characters that fits the prompt,
    and Enter: the text typed becomes the search query, and what follows
    is [search_forward] with that query from the cursor, and
    [draw_screen].  The function keys are taken to have codes above 255,
    as they have in ncurses. *)
Theorem typed_query_is_searched (k : curses_keys) (cs : list Z) (s : session) :
  function_keys_high k ->
  md s = Editing ->
  Forall printable cs ->
  Z.of_nat (length cs) <= MAX_SEARCH - 1 ->
  feed k (6 :: cs ++ [10]) s
  = redraw s <$> search_forward (set_search_query (map char_of_int cs) (ed s)).
Proof.
  intros Hk Hmd Hp Hlen.
  pose proof Hk as (? & ? & ? & ? & ? & ? & ? & ?).
  cbn [feed]. unfold key_step at 1. rewrite Hmd. unfold main_key.
  destruct (Z.eqb_spec 6 17); [lia|]. destruct (Z.eqb_spec 6 19); [lia|].
  destruct (Z.eqb_spec 6 (KEY_UP k)); [lia|].
  destruct (Z.eqb_spec 6 (KEY_DOWN k)); [lia|].
  destruct (Z.eqb_spec 6 (KEY_PPAGE k)); [lia|].
  destruct (Z.eqb_spec 6 (KEY_NPAGE k)); [lia|].
  destruct (Z.eqb_spec 6 (KEY_LEFT k)); [lia|].
  destruct (Z.eqb_spec 6 (KEY_RIGHT k)); [lia|].
  destruct (Z.eqb_spec 6 (KEY_BACKSPACE k)); [lia|].
  cbn [mbind option_bind orb Z.eqb Pos.eqb].
  rewrite (feed_typing k cs [] _ [10]);
    [|done|done|unfold strlen; cbn [length]; lia|done].
  cbn [feed app]. unfold key_step. cbn [md enter_mode].
  unfold search_key. cbn [Z.eqb Pos.eqb orb].
  rewrite take_ge by (rewrite length_map; unfold MAX_SEARCH in *; lia).
  cbn [ed enter_mode].
  by destruct (search_forward _).
Qed.

Lemma typed_query_is_searched_witness :
  feed ncurses_keys (6 :: [97; 98] ++ [10]) sample_session
  = redraw sample_session <$>
      search_forward (set_search_query (map char_of_int [97; 98]) (ed sample_session)).
Proof.
  apply (typed_query_is_searched ncurses_keys [97; 98] sample_session).
  - unfold function_keys_high. vm_compute. repeat split; congruence.
  - reflexivity.
  - repeat (constructor; [unfold printable; lia|]). constructor.
  - vm_compute. congruence.
Defined.

(** ** The save prompt *)

Lemma save_key_types (k : curses_keys) (buf : line) (ch : Z) (s : session) :
  function_keys_high k -> printable ch -> strlen buf < 1023 ->
  save_key k true buf ch s = Some (enter_mode (Saving (buf ++ [char_of_int ch])) s).
Proof.
  intros (_ & _ & _ & _ & _ & _ & Hb & He) [Hlo Hhi] Hlen.
  unfold save_key, prompt_type.
  destruct (Z.eqb_spec ch 27); [lia|].
  destruct (Z.eqb_spec ch 10); [lia|].
  destruct (Z.eqb_spec ch (KEY_ENTER k)); [lia|].
  destruct (Z.eqb_spec ch (KEY_BACKSPACE k)); [lia|].
  destruct (Z.eqb_spec ch 127); [lia|].
  destruct (Z.leb_spec 32 ch); [|lia].
  destruct (Z.ltb_spec ch 127); [|lia].
  destruct (Z.ltb_spec (strlen buf) 1023); [|lia].
  done.
Qed.

Lemma feed_typing_name (k : curses_keys) (cs : list Z) (buf : line) (s : session)
    (rest : list Z) :
  function_keys_high k -> Forall printable cs ->
  strlen buf + Z.of_nat (length cs) <= 1023 ->
  md s = Saving buf ->
  feed k (cs ++ rest) s
  = feed k rest (enter_mode (Saving (buf ++ map char_of_int cs)) s).
Proof.
  intros Hk Hp. revert buf s.
  induction Hp as [|c cs Hc _ IH]; intros buf s Hlen Hmd; cbn.
  - rewrite app_nil_r. destruct s; cbn in *. by subst.
  - unfold key_step. rewrite Hmd.
    rewrite save_key_types; [|done|done|cbn in Hlen; lia].
    cbn. rewrite (IH (buf ++ [char_of_int c])).
    + cbn. by rewrite <- app_assoc.
    + unfold strlen in *. rewrite length_app. cbn in *. lia.
    + done.
Qed.

(** X22.  Ctrl-S with no file name yet, a name of printable characters
    that fits the prompt, and Enter: the name typed becomes [filename], the
    document is written under it, each line followed by a newline, and the
    program is back in the loop of [main] with the document untouched.
    The function keys are taken to have codes above 255, and [fopen] to
    succeed. *)
Theorem typed_name_is_saved (k : curses_keys) (cs : list Z) (s : session) :
  function_keys_high k ->
  md s = Editing -> filename s = [] ->
  cs <> [] -> Forall printable cs ->
  Z.of_nat (length cs) <= 1023 ->
  feed k (19 :: cs ++ [10]) s
  = Some (mkSession (draw_screen (scr_rows s) (ed s)) Editing
            (map char_of_int cs) (scr_rows s)
            ((map char_of_int cs, file_text (ed s)) :: written s)).
Proof.
  intros Hk Hmd Hname Hne Hp Hlen.
  cbn [feed]. unfold key_step at 1. rewrite Hmd. unfold main_key.
  cbn [Z.eqb Pos.eqb]. rewrite Hname.
  cbn [mbind option_bind].
  rewrite (feed_typing_name k cs [] _ [10]);
    [|done|done|unfold strlen; cbn [length]; lia|done].
  cbn [feed app]. unfold key_step. cbn [md enter_mode].
  unfold save_key. cbn [Z.eqb Pos.eqb orb].
  destruct (map char_of_int cs) as [|b bs] eqn:E.
  { destruct cs; [done|discriminate]. }
  rewrite <- E.
  rewrite take_ge by (rewrite length_map; lia).
  unfold do_save, save_file. cbn [filename ed md scr_rows written enter_mode].
  rewrite E. cbn. done.
Qed.

Lemma typed_name_is_saved_witness :
  feed ncurses_keys (19 :: [97; 98] ++ [10])
       (boot None None 24 80 [])
  = Some (mkSession (draw_screen 24 (ed (boot None None 24 80 []))) Editing
            (map char_of_int [97; 98]) 24
            [(map char_of_int [97; 98], file_text (ed (boot None None 24 80 [])))]).
Proof.
  apply (typed_name_is_saved ncurses_keys [97; 98] (boot None None 24 80 [])).
  - unfold function_keys_high. vm_compute. repeat split; congruence.
  - reflexivity.
  - reflexivity.
  - congruence.
  - repeat (constructor; [unfold printable; lia|]). constructor.
  - vm_compute. congruence.
Defined.
